(** * polymer_entropy: the Experiment / SetOfExperiments pipeline of
      [src/experiment.py], embedded in Rocq.

    Numbers are modelled at three levels, each where it matters.
    [correct_signs] is written once, over an interface of the arithmetic
    it uses, and is instantiated at exact rationals ([Q]), at binary64
    floats and at numpy scalars ([npscalar]: int64 with wrap-around, or
    float64), the last being what the elements of a parsed column are.
    [get_entropy] is run on tables of exact rationals, where only rows,
    columns and files matter, and again on tables of binary64 cells
    ([Binary64]), where the bins of [np.histogram2d] and its failure on
    [nan] and infinite values matter.  The natural logarithm of the
    entropy lives in the real numbers ([R]); the special values that numpy
    produces there ([nan], [inf]) are kept explicit in [npfloat].

    Objects are mutated in place: a method is a function from the state of
    the object to the new state and an outcome, returned or raised.  The
    library calls the module makes ([pd.read_csv], [DataFrame.drop],
    [iloc], [np.histogram2d], [scipy.stats.entropy], [np.median],
    [np.percentile], [os.path.join]) are written out after their
    documented behaviour.

    Part one holds the definitions, part two the properties. *)

From Stdlib Require Import String DecimalString.
From Stdlib Require Import List Bool Arith ZArith Lia Sorted.
From Stdlib Require Import QArith Qabs.
From Stdlib Require Import Reals Psatz.
From Stdlib Require Import PrimFloat.
From Stdlib Require Uint63 SpecFloat FloatOps FloatAxioms.
Import ListNotations.

Close Scope Q_scope.
Open Scope nat_scope.
Set Warnings "-inexact-float".

(* ================================================================== *)
(** ** The arithmetic that [correct_signs] uses *)

(** What the body of [correct_signs] asks of the array's element type:
    [+], [*], [np.abs], unary minus (for [*= -1]), [<] and the literal
    [0.5] of the default threshold. *)
Class Numeric (A : Type) : Type := {
  nzero : A;
  nhalf : A;
  nadd : A -> A -> A;
  nmul : A -> A -> A;
  nabs : A -> A;
  nneg : A -> A;
  nltb : A -> A -> bool
}.

Definition Qltb (x y : Q) : bool := negb (Qle_bool y x).

#[export] Instance Q_Numeric : Numeric Q := {|
  nzero := 0%Q;
  nhalf := (1 # 2)%Q;
  nadd := Qplus;
  nmul := Qmult;
  nabs := Qabs;
  nneg := Qopp;
  nltb := Qltb
|}.

#[export] Instance float_Numeric : Numeric float := {|
  nzero := 0%float;
  nhalf := 0.5%float;
  nadd := PrimFloat.add;
  nmul := PrimFloat.mul;
  nabs := PrimFloat.abs;
  nneg := PrimFloat.opp;
  nltb := PrimFloat.ltb
|}.

(* ================================================================== *)
(** ** numpy scalars

    A column of a parsed table has dtype float64 or, when every cell is an
    integer literal, int64.  Arithmetic on int64 wraps around silently; a
    Python float (the threshold) or a float64 operand promotes the result
    to float64, the int64 operand being rounded to the nearest binary64
    number. *)

Definition int64_min : Z := (- 2 ^ 63)%Z.

(** The two's-complement value of an integer in 64 bits. *)
Definition wrap64 (z : Z) : Z := ((z + 2 ^ 63) mod 2 ^ 64 - 2 ^ 63)%Z.

(** int64 to float64, round to nearest even. *)
Definition float_of_int64 (z : Z) : float :=
  if (z <? 0)%Z then
    if (z =? int64_min)%Z then (-0x1p63)%float
    else PrimFloat.opp (PrimFloat.of_uint63 (Uint63.of_Z (- z)))
  else PrimFloat.of_uint63 (Uint63.of_Z z).

Inductive npscalar : Type :=
| I64 (z : Z)
| F64 (f : float).

Definition as_float64 (x : npscalar) : float :=
  match x with
  | I64 z => float_of_int64 z
  | F64 f => f
  end.

#[export] Instance npscalar_Numeric : Numeric npscalar := {|
  nzero := F64 0%float;
  nhalf := F64 0.5%float;
  nadd := fun x y =>
    match x, y with
    | I64 a, I64 b => I64 (wrap64 (a + b))
    | _, _ => F64 (PrimFloat.add (as_float64 x) (as_float64 y))
    end;
  nmul := fun x y =>
    match x, y with
    | I64 a, I64 b => I64 (wrap64 (a * b))
    | _, _ => F64 (PrimFloat.mul (as_float64 x) (as_float64 y))
    end;
  nabs := fun x =>
    match x with
    | I64 a => I64 (wrap64 (Z.abs a))
    | F64 f => F64 (PrimFloat.abs f)
    end;
  nneg := fun x =>
    match x with
    | I64 a => I64 (wrap64 (- a))
    | F64 f => F64 (PrimFloat.opp f)
    end;
  nltb := fun x y =>
    match x, y with
    | I64 a, I64 b => (a <? b)%Z
    | _, _ => PrimFloat.ltb (as_float64 x) (as_float64 y)
    end
|}.

(** [x == 0] *)
Definition zero_valued (x : npscalar) : bool :=
  match x with
  | I64 z => (wrap64 z =? 0)%Z
  | F64 f => PrimFloat.eqb f 0%float
  end.

(** The one int64 whose negation and absolute value wrap onto itself. *)
Definition is_int64_min (x : npscalar) : bool :=
  match x with
  | I64 z => (wrap64 z =? int64_min)%Z
  | F64 _ => false
  end.

(* ================================================================== *)
(** ** [correct_signs] (experiment.py, lines 230-238) *)

Section CorrectSigns.
Context {A : Type} `{Numeric A}.

(** [series_corrected[k:] *= -1] *)
Definition negate_from (k : nat) (a : list A) : list A :=
  firstn k a ++ map nneg (skipn k a).

(** [np.abs(a[i] + a[i+1]) < thres * np.abs(a[i+1])] *)
Definition flip_test (thres x y : A) : bool :=
  nltb (nabs (nadd x y)) (nmul thres (nabs y)).

Definition flip_condition (thres : A) (a : list A) (i : nat) : bool :=
  flip_test thres (nth i a nzero) (nth (S i) a nzero).

(** One iteration of the [for] loop, on the working array. *)
Definition scan_step (thres : A) (a : list A) (i : nat) : list A :=
  if flip_condition thres a i then negate_from (S i) a else a.

(** [for i in range(len(series_corrected) - 1): ...]; the subtraction on
    [nat] truncates at 0, as [range] of a negative bound is empty. *)
Definition correct_signs_thres (thres : A) (series : list A) : list A :=
  fold_left (scan_step thres) (seq 0 (length series - 1)) series.

(** [thres: float = 0.5] *)
Definition correct_signs (series : list A) : list A :=
  correct_signs_thres nhalf series.


(** No adjacent pair of the series meets the flip condition. *)
Fixpoint settled (thres : A) (s : list A) : Prop :=
  match s with
  | x :: ((y :: _) as t) => flip_test thres x y = false /\ settled thres t
  | _ => True
  end.

End CorrectSigns.

(* ================================================================== *)
(** ** Exceptions and the state of an object *)

(** The places of the module where an index can be out of range. *)
Inductive index_site : Type :=
| FirstRowLabel                       (* [self.dataframe.index[0]] *)
| ColumnSelect (col : Z)              (* [self.dataframe.iloc[:, col]] *)
| LastFirstMer                        (* [first_mers[-1]] *)
| FirstExperiment                     (* [self.experiments[0]] *)
| ColumnLabel (col : Z)               (* [.columns[col]] *)
| RealisationSlot (mer slot : nat)    (* [entropies[mer][slot]] *)
| EmptyPercentile.                    (* [np.percentile] of an empty array *)

Inductive error : Type :=
| FileNotFoundError (path : string)
| AssertionError (message : string)
| IndexError (site : index_site)
| KeyError (key : string)
| ValueError.                         (* [np.histogram2d]: range not finite *)

Inductive outcome (A : Type) : Type :=
| Returned (a : A)
| Raised (e : error).

Arguments Returned {A} a.
Arguments Raised {A} e.

(** A method: it may mutate the object it runs on and either returns or
    raises; the mutations made before a [raise] stay. *)
Definition method (S A : Type) : Type := S -> S * outcome A.

Definition ret {S A : Type} (a : A) : method S A := fun s => (s, Returned a).

Definition raise {S A : Type} (e : error) : method S A := fun s => (s, Raised e).

Definition bind {S A B : Type} (m : method S A) (k : A -> method S B) : method S B :=
  fun s =>
    match m s with
    | (s', Returned a) => k a s'
    | (s', Raised e) => (s', Raised e)
    end.

Definition get {S : Type} : method S S := fun s => (s, Returned s).

Notation "x <- m ;; k" := (bind m (fun x => k))
  (at level 61, m at next level, right associativity).
Notation "m ;;; k" := (bind m (fun _ => k))
  (at level 61, right associativity).

(** A pure computation that may raise, run inside a method. *)
Definition lift {S A : Type} (o : outcome A) : method S A := fun s => (s, o).

(** [[f(x) for x in xs]] *)
Fixpoint for_list {S A B : Type} (f : A -> method S B) (xs : list A) : method S (list B) :=
  match xs with
  | [] => ret []
  | x :: rest =>
      b <- f x ;;
      bs <- for_list f rest ;;
      ret (b :: bs)
  end.

(** [for x in xs: body(x)] *)
Fixpoint for_each {S A : Type} (body : A -> method S Datatypes.unit) (xs : list A)
  : method S Datatypes.unit :=
  match xs with
  | [] => ret tt
  | x :: rest => body x ;;; for_each body rest
  end.

(** [range(n)] for a Python [int] [n]. *)
Definition range (n : Z) : list nat := seq 0 (Z.to_nat n).

(** [xs[i]] on a Python list: negative indices count from the end. *)
Definition list_item {A : Type} (xs : list A) (i : Z) : option A :=
  let n := Z.of_nat (length xs) in
  if (0 <=? i)%Z then nth_error xs (Z.to_nat i)
  else if (- n <=? i)%Z then nth_error xs (Z.to_nat (n + i))
  else None.

(* ================================================================== *)
(** ** Strings *)

Open Scope string_scope.

(** [needle in haystack] *)
Fixpoint contains (needle haystack : string) : bool :=
  String.prefix needle haystack
  || match haystack with
     | EmptyString => false
     | String _ rest => contains needle rest
     end.

Definition ends_with (suffix s : string) : bool :=
  let n := String.length s in
  let k := String.length suffix in
  (k <=? n)%nat && String.eqb (String.substring (n - k) k s) suffix.

(** [str(n)] for a non-negative integer. *)
Definition str_nat (n : nat) : string := NilEmpty.string_of_uint (Nat.to_uint n).

(** [os.path.join(a, b)] on POSIX paths. *)
Definition os_path_join (a b : string) : string :=
  if String.prefix "/" b then b
  else if String.eqb a EmptyString || ends_with "/" a then a ++ b
  else a ++ "/" ++ b.

(* ================================================================== *)
(** ** The column schema (experiment.py, lines 14-44) *)

Record ColumnMeaning : Type := { description : string; unit : string }.

Definition energy_columns : list ColumnMeaning := [
  {| description := "Time"; unit := "ps" |};
  {| description := "Total energy of the system"; unit := "kJ/mol" |};
  {| description := "Total bond energy"; unit := "kJ/mol" |};
  {| description := "Total angle energy"; unit := "kJ/mol" |};
  {| description := "Total dihedral energy"; unit := "kJ/mol" |};
  {| description := "Total planar energy"; unit := "kJ/mol" |};
  {| description := "Total Coulomb energy"; unit := "kJ/mol" |};
  {| description := "Total Van der Waals energy"; unit := "kJ/mol" |}
].

Definition main_chain_angles : list string := ["ϕ₁₄"; "ψ₁₄"; "ϕ₁₃"; "ψ₁₃"].

Definition side_chain_angles : list string := ["γ"; "ω"; "δ"].

(** [f"{angle} mers {mer+1}, {mer+2}"] *)
Definition angle_description (angle : string) (mer : nat) : string :=
  angle ++ " mers " ++ str_nat (mer + 1) ++ ", " ++ str_nat (mer + 2).

Definition angle_column (angle : string) (mer : nat) : ColumnMeaning :=
  {| description := angle_description angle mer; unit := "deg" |}.

(** [self.chain = 'side chain' if 'sidechain' in filepath else 'main chain'] *)
Definition chain_of_path (filepath : string) : string :=
  if contains "sidechain" filepath then "side chain" else "main chain".

(** The [if] / [elif] that extends [self.columns]; there is no [else]. *)
Definition schema_columns (chain : string) : list ColumnMeaning :=
  energy_columns ++
  (if String.eqb chain "main chain" then
     flat_map (fun mer => map (fun angle => angle_column angle mer) main_chain_angles)
              (range 23)
   else if String.eqb chain "side chain" then
     flat_map (fun angle => map (fun mer => angle_column angle mer) (range 23))
              side_chain_angles
   else []).

(* ================================================================== *)
(** ** Tables *)

(** A pandas frame of numbers: a fixed number of columns and labelled rows,
    in order. *)
Record DataFrame : Type := {
  width : nat;
  rows : list (Z * list Q)
}.

(** What [pd.read_csv] finds at each path: the parsed cells (header and
    footer left out), or nothing when the file cannot be read. *)
Record Table : Type := { table_width : nat; cells : list (list Q) }.

Definition FileSystem : Type := string -> option Table.

(** [pd.read_csv(filepath, sep=";", skipfooter=2, engine="python")]: the
    rows are labelled 0, 1, 2, ... *)
Definition read_csv (fs : FileSystem) (filepath : string) : outcome DataFrame :=
  match fs filepath with
  | None => Raised (FileNotFoundError filepath)
  | Some t =>
      Returned {| width := table_width t;
                  rows := combine (map Z.of_nat (seq 0 (length (cells t)))) (cells t) |}
  end.

(** [df.drop(index=label, axis=0)]: every row carrying that label goes. *)
Definition drop_label (label : Z) (df : DataFrame) : DataFrame :=
  {| width := width df;
     rows := filter (fun r => negb (Z.eqb (fst r) label)) (rows df) |}.

(** [df.iloc[:, col]]: a column by position, negative positions counting
    from the right. *)
Definition iloc_column (df : DataFrame) (col : Z) : outcome (list Q) :=
  let w := Z.of_nat (width df) in
  if ((- w <=? col) && (col <? w))%Z then
    let c := Z.to_nat (if (col <? 0)%Z then w + col else col)%Z in
    Returned (map (fun r => nth c (snd r) 0%Q) (rows df))
  else Raised (IndexError (ColumnSelect col)).

(* ================================================================== *)
(** ** [Experiment] (experiment.py, lines 16-51) *)

Record Experiment : Type := {
  dataframe : DataFrame;
  chain : string;
  columns : list ColumnMeaning
}.

(** [Experiment.__init__] *)
Definition Experiment_init (fs : FileSystem) (filepath : string) : outcome Experiment :=
  match read_csv fs filepath with
  | Raised e => Raised e
  | Returned df =>
      let chain := chain_of_path filepath in
      Returned {| dataframe := df; chain := chain; columns := schema_columns chain |}
  end.

(** [Experiment.drop_first_observations] *)
Definition drop_first_observations : method Experiment Datatypes.unit :=
  fun self =>
    match rows (dataframe self) with
    | [] => (self, Raised (IndexError FirstRowLabel))
    | first :: _ =>
        ({| dataframe := drop_label (fst first) (dataframe self);
            chain := chain self;
            columns := columns self |}, Returned tt)
    end.

Close Scope string_scope.

(* ================================================================== *)
(** ** [np.histogram2d] on exact values *)

(** [a.min()] and [a.max()] of a non-empty array. *)
Definition Qminimum (x : Q) (l : list Q) : Q :=
  fold_left (fun m v => if Qltb v m then v else m) l x.

Definition Qmaximum (x : Q) (l : list Q) : Q :=
  fold_left (fun m v => if Qltb m v then v else m) l x.

(** The range of one axis: (0, 1) for an empty sample, the extreme values
    otherwise, widened by one half on each side when they coincide. *)
Definition outer_edges (a : list Q) : Q * Q :=
  match a with
  | [] => (0, 1)%Q
  | x :: l =>
      let lo := Qminimum x l in
      let hi := Qmaximum x l in
      if Qeq_bool lo hi then (lo - (1 # 2), hi + (1 # 2))%Q else (lo, hi)
  end.

(** [np.linspace(start, stop, bins + 1)]: [arange * step + start], the last
    entry set to [stop]. *)
Definition linspace (start stop : Q) (bins : nat) : list Q :=
  let step := ((stop - start) / inject_Z (Z.of_nat bins))%Q in
  map (fun j => (inject_Z (Z.of_nat j) * step + start)%Q) (seq 0 bins) ++ [stop].

(** [np.searchsorted(edges, v, side='right')] on increasing edges. *)
Fixpoint searchsorted_right (edges : list Q) (v : Q) : nat :=
  match edges with
  | [] => 0
  | e :: rest => if Qle_bool e v then S (searchsorted_right rest v) else 0
  end.

(** The bin of a value: values on the rightmost edge go into the last bin. *)
Definition bin_number (edges : list Q) (v : Q) : nat :=
  let k := searchsorted_right edges v in
  if Qeq_bool v (last edges 0%Q) then k - 1 else k.

Definition axis_edges (bins : nat) (a : list Q) : list Q :=
  linspace (fst (outer_edges a)) (snd (outer_edges a)) bins.

Definition count_pair (i j : nat) (ps : list (nat * nat)) : nat :=
  length (filter (fun p => Nat.eqb (fst p) i && Nat.eqb (snd p) j) ps).

(** [np.histogram2d(x, y, bins)[0]]: the counts of the inner bins 1..bins
    of both axes, rows along x. *)
Definition histogram2d (x y : list Q) (bins : nat) : list (list nat) :=
  let nx := map (bin_number (axis_edges bins x)) x in
  let ny := map (bin_number (axis_edges bins y)) y in
  map (fun i => map (fun j => count_pair i j (combine nx ny)) (seq 1 bins)) (seq 1 bins).

(* ================================================================== *)
(** ** numpy floats: reals with [nan] and the infinities *)

Inductive npfloat : Type :=
| NaN
| NInf
| Fin (r : R)
| PInf.

Definition npneg (x : npfloat) : npfloat :=
  match x with
  | NaN => NaN
  | NInf => PInf
  | Fin r => Fin (- r)%R
  | PInf => NInf
  end.

Definition npadd (x y : npfloat) : npfloat :=
  match x, y with
  | NaN, _ | _, NaN => NaN
  | PInf, NInf | NInf, PInf => NaN
  | PInf, _ | _, PInf => PInf
  | NInf, _ | _, NInf => NInf
  | Fin a, Fin b => Fin (a + b)%R
  end.

Definition npsub (x y : npfloat) : npfloat := npadd x (npneg y).

(** Sign of a real: [Lt], [Eq] or [Gt] as it is below, at or above 0. *)
Definition Rsign (r : R) : comparison :=
  match total_order_T r 0 with
  | inleft (left _) => Lt
  | inleft (right _) => Eq
  | inright _ => Gt
  end.

Definition npsign (x : npfloat) : option comparison :=
  match x with
  | NaN => None
  | NInf => Some Lt
  | Fin r => Some (Rsign r)
  | PInf => Some Gt
  end.

Definition signed_inf (s t : comparison) : npfloat :=
  match s, t with
  | Eq, _ | _, Eq => NaN
  | Lt, Lt | Gt, Gt => PInf
  | _, _ => NInf
  end.

Definition npmul (x y : npfloat) : npfloat :=
  match x, y with
  | Fin a, Fin b => Fin (a * b)%R
  | _, _ =>
      match npsign x, npsign y with
      | Some s, Some t => signed_inf s t
      | _, _ => NaN
      end
  end.

Definition npdiv (x y : npfloat) : npfloat :=
  match x, y with
  | NaN, _ | _, NaN => NaN
  | Fin a, Fin b =>
      match Rsign b with
      | Eq => signed_inf (Rsign a) Gt
      | _ => Fin (a / b)%R
      end
  | Fin _, _ => Fin 0%R
  | _, Fin b =>
      match npsign x, Rsign b with
      | Some s, Eq => signed_inf s Gt
      | Some s, t => signed_inf s t
      | None, _ => NaN
      end
  | _, _ => NaN
  end.

(** [sum(v)] and [np.sum(v)] *)
Definition npsum (v : list npfloat) : npfloat := fold_left npadd v (Fin 0%R).

(** [scipy.special.entr] *)
Definition entr (x : npfloat) : npfloat :=
  match x with
  | NaN => NaN
  | Fin r =>
      match Rsign r with
      | Gt => Fin (- r * ln r)%R
      | Eq => Fin 0%R
      | Lt => NInf
      end
  | _ => NInf
  end.

(** [scipy.stats.entropy(pk)]: [pk] is normalised once more, then
    [sum(entr(pk))]; the logarithm is the natural one. *)
Definition entropy (pk : list npfloat) : npfloat :=
  let total := npsum pk in
  npsum (map (fun p => entr (npdiv p total)) pk).

(** The molar gas constant of line 123. *)
Definition R_gas : R := (8314 / 1000)%R.

(** Lines 119-123 of [get_entropy], from the two corrected series on. *)
Definition histogram_entropy (x y : list Q) : npfloat :=
  let h := histogram2d x y 10 in
  let h_vec := map (fun c => Fin (INR c)) (concat h) in
  let total := npsum h_vec in
  let h_norm := map (fun c => npdiv c total) h_vec in
  npmul (Fin R_gas) (entropy h_norm).

(** [Experiment.get_entropy] (lines 109-123) *)
Definition get_entropy (xcol ycol : Z) : method Experiment npfloat :=
  drop_first_observations ;;;
  self <- get ;;
  y <- lift (iloc_column (dataframe self) ycol) ;;
  let y := correct_signs y in
  x <- lift (iloc_column (dataframe self) xcol) ;;
  let x := correct_signs x in
  ret (histogram_entropy x y).

(* ================================================================== *)
(** ** [get_entropy] on binary64 tables

    Which bin [np.histogram2d] puts a sample in depends on the binary64
    arithmetic of the bin edges, and a table that pandas has parsed can
    hold [nan] and the infinities.  This part runs [get_entropy] on tables
    whose cells are binary64 numbers (columns of dtype float64), with the
    arithmetic of the hardware; the entropy of the counts stays in the
    reals as above. *)

Module Binary64.

Record DataFrame : Type := {
  width : nat;
  rows : list (Z * list float)
}.

(** [df.drop(index=label, axis=0)] *)
Definition drop_label (label : Z) (df : DataFrame) : DataFrame :=
  {| width := width df;
     rows := filter (fun r => negb (Z.eqb (fst r) label)) (rows df) |}.

(** [df.iloc[:, col]] *)
Definition iloc_column (df : DataFrame) (col : Z) : outcome (list float) :=
  let w := Z.of_nat (width df) in
  if ((- w <=? col) && (col <? w))%Z then
    let c := Z.to_nat (if (col <? 0)%Z then w + col else col)%Z in
    Returned (map (fun r => nth c (snd r) 0%float) (rows df))
  else Raised (IndexError (ColumnSelect col)).

Definition column_in_range (df : DataFrame) (col : Z) : Prop :=
  (- Z.of_nat (width df) <= col < Z.of_nat (width df))%Z.

Record Experiment : Type := {
  dataframe : DataFrame;
  chain : string;
  columns : list ColumnMeaning
}.

(** [Experiment.drop_first_observations] *)
Definition drop_first_observations : method Experiment Datatypes.unit :=
  fun self =>
    match rows (dataframe self) with
    | [] => (self, Raised (IndexError FirstRowLabel))
    | first :: _ =>
        ({| dataframe := drop_label (fst first) (dataframe self);
            chain := chain self;
            columns := columns self |}, Returned tt)
    end.

(** *** [np.histogram2d(x, y, bins)] *)

Definition is_nan (f : float) : bool := negb (PrimFloat.eqb f f).

(** [np.isfinite] *)
Definition is_finite (f : float) : bool :=
  PrimFloat.ltb (PrimFloat.abs f) PrimFloat.infinity.

(** [np.minimum] and [np.maximum]: a [nan] operand is the result. *)
Definition np_minimum (m v : float) : float :=
  if is_nan m then m else if is_nan v then v
  else if PrimFloat.ltb v m then v else m.

Definition np_maximum (m v : float) : float :=
  if is_nan m then m else if is_nan v then v
  else if PrimFloat.ltb m v then v else m.

(** [a.min()] and [a.max()] of a non-empty array. *)
Definition minimum (x : float) (l : list float) : float := fold_left np_minimum l x.
Definition maximum (x : float) (l : list float) : float := fold_left np_maximum l x.

(** The autodetected range of one axis is finite. *)
Definition finite_range (a : list float) : bool :=
  match a with
  | [] => true
  | x :: l => is_finite (minimum x l) && is_finite (maximum x l)
  end.

(** [_get_outer_edges]: (0, 1) for an empty sample; otherwise the extreme
    values, which must be finite, widened by one half on each side when
    they are equal. *)
Definition outer_edges (a : list float) : outcome (float * float) :=
  match a with
  | [] => Returned (0, 1)%float
  | x :: l =>
      let lo := minimum x l in
      let hi := maximum x l in
      if finite_range a then
        if PrimFloat.eqb lo hi then Returned (lo - 0.5, hi + 0.5)%float
        else Returned (lo, hi)
      else Raised ValueError
  end.

Definition float_of_nat (n : nat) : float :=
  PrimFloat.of_uint63 (Uint63.of_Z (Z.of_nat n)).

(** [np.linspace(start, stop, bins + 1)]: [step = (stop - start) / bins],
    the entries are [j * step + start] (or [j / bins * (stop - start) +
    start] when the step rounds to zero), the last one is set to [stop]. *)
Definition linspace (start stop : float) (bins : nat) : list float :=
  let div := float_of_nat bins in
  let delta := (stop - start)%float in
  let step := (delta / div)%float in
  let scaled := fun j : nat =>
    if PrimFloat.eqb step 0 then (float_of_nat j / div * delta)%float
    else (float_of_nat j * step)%float in
  map (fun j => (scaled j + start)%float) (seq 0 bins) ++ [stop].

(** [np.searchsorted(edges, v, side='right')] on increasing edges. *)
Fixpoint searchsorted_right (edges : list float) (v : float) : nat :=
  match edges with
  | [] => 0
  | e :: rest => if PrimFloat.leb e v then S (searchsorted_right rest v) else 0
  end.

(** The bin of a value: values on the rightmost edge go into the last bin. *)
Definition bin_number (edges : list float) (v : float) : nat :=
  let k := searchsorted_right edges v in
  if PrimFloat.eqb v (last edges 0%float) then k - 1 else k.

(** The counts of the inner bins 1..bins of both axes, rows along x; the
    range of x is looked at first. *)
Definition histogram2d (x y : list float) (bins : nat) : outcome (list (list nat)) :=
  match outer_edges x with
  | Raised err => Raised err
  | Returned (xlo, xhi) =>
      match outer_edges y with
      | Raised err => Raised err
      | Returned (ylo, yhi) =>
          let nx := map (bin_number (linspace xlo xhi bins)) x in
          let ny := map (bin_number (linspace ylo yhi bins)) y in
          Returned (map (fun i => map (fun j => count_pair i j (combine nx ny))
                                      (seq 1 bins))
                        (seq 1 bins))
      end
  end.

(** Lines 120-123 of [get_entropy], from the histogram on. *)
Definition counts_entropy (h : list (list nat)) : npfloat :=
  let h_vec := map (fun c => Fin (INR c)) (concat h) in
  let total := npsum h_vec in
  let h_norm := map (fun c => npdiv c total) h_vec in
  npmul (Fin R_gas) (entropy h_norm).

(** [Experiment.get_entropy] (lines 109-123) *)
Definition get_entropy (xcol ycol : Z) : method Experiment npfloat :=
  drop_first_observations ;;;
  self <- get ;;
  y <- lift (iloc_column (dataframe self) ycol) ;;
  let y := correct_signs y in
  x <- lift (iloc_column (dataframe self) xcol) ;;
  let x := correct_signs x in
  h <- lift (histogram2d x y 10) ;;
  ret (counts_entropy h).


(** One dropped row followed by the hundred pairs (k mod 10, k / 10): one
    sample for each of the 10 x 10 bins. *)
Definition uniform_pairs : list (float * float) :=
  (0, 0)%float ::
  map (fun k => (float_of_nat (k mod 10), float_of_nat (k / 10))) (seq 0 100).


End Binary64.

(** *** The entropy as the specification words it *)

(** The probability mass function of a vector of bin counts. *)
Definition pmf (counts : list nat) : list R :=
  map (fun c => (INR c / INR (list_sum counts))%R) counts.

(** Shannon entropy to base e, empty bins contributing zero. *)
Definition shannon_term (p : R) : R :=
  if Req_dec_T p 0 then 0%R else (- p * ln p)%R.

Definition shannon_entropy (p : list R) : R :=
  fold_right (fun q acc => (shannon_term q + acc)%R) 0%R p.

(* ================================================================== *)
(** ** [np.median] and [np.percentile] *)

(** The order [np.sort] uses: -inf, the reals, +inf, and [nan] last. *)
Definition nple (x y : npfloat) : bool :=
  match x, y with
  | _, NaN => true
  | NaN, _ => false
  | NInf, _ => true
  | _, NInf => false
  | _, PInf => true
  | PInf, _ => false
  | Fin a, Fin b => if Rle_dec a b then true else false
  end.

Fixpoint insert_sorted (x : npfloat) (l : list npfloat) : list npfloat :=
  match l with
  | [] => [x]
  | y :: rest => if nple x y then x :: l else y :: insert_sorted x rest
  end.

Definition np_sort (a : list npfloat) : list npfloat := fold_right insert_sorted [] a.

Definition is_nan (x : npfloat) : bool :=
  match x with NaN => true | _ => false end.

(** [np.median(a)]: the middle element of the sorted array, or the mean of
    the two middle ones; [nan] for an empty array or one that holds [nan]. *)
Definition np_median (a : list npfloat) : npfloat :=
  let n := length a in
  if (n =? 0) || existsb is_nan a then NaN
  else
    let s := np_sort a in
    if Nat.odd n then nth (n / 2) s NaN
    else npdiv (npadd (nth (n / 2 - 1) s NaN) (nth (n / 2) s NaN)) (Fin 2%R).

(** The value of [np.percentile(a, q)] on a non-empty array, for a whole
    percentage [q] and the default method 'linear': the virtual index is
    [(n - 1) * q / 100]; the two neighbours in the sorted array are
    interpolated as numpy's [_lerp] does.  An array that holds [nan] gives
    [nan]. *)
Definition percentile_linear (a : list npfloat) (q : nat) : npfloat :=
  let n := length a in
  if existsb is_nan a then NaN
  else
    let s := np_sort a in
    let position := (n - 1) * q in
    let previous := position / 100 in
    let next := Nat.min (previous + 1) (n - 1) in
    let gamma := (INR (position mod 100) / 100)%R in
    let lower := nth previous s NaN in
    let upper := nth next s NaN in
    let diff := npsub upper lower in
    if 50 <=? position mod 100
    then npsub upper (npmul diff (Fin (1 - gamma)%R))
    else npadd lower (npmul diff (Fin gamma)).

(** [np.percentile(a, q)]: the empty array has no element to take and the
    call raises an index error, where [np.median] returns [nan]. *)
Definition np_percentile (a : list npfloat) (q : nat) : outcome npfloat :=
  match a with
  | [] => Raised (IndexError EmptyPercentile)
  | _ :: _ => Returned (percentile_linear a q)
  end.

(* ================================================================== *)
(** ** [SetOfExperiments] (experiment.py, lines 126-228) *)

Open Scope string_scope.

(** The class attribute [magic_numbers]. *)
Definition magic_numbers : list (string * Z) := [("analysis", 4%Z); ("sidechain", 1%Z)].

Fixpoint dict_get {V : Type} (d : list (string * V)) (key : string) : option V :=
  match d with
  | [] => None
  | (k, v) :: rest => if String.eqb k key then Some v else dict_get rest key
  end.

Record SetOfExperiments : Type := {
  partial_path : string;
  ion : string;
  chain_type : string;          (* [self.chain] *)
  no_experiments : Z;
  magic_number : Z;
  experiments : list Experiment
}.

(** [[Experiment(os.path.join(data_path, fp)) for fp in names]] *)
Fixpoint load_experiments (fs : FileSystem) (data_path : string) (names : list string)
  : outcome (list Experiment) :=
  match names with
  | [] => Returned []
  | fp :: rest =>
      match Experiment_init fs (os_path_join data_path fp) with
      | Raised e => Raised e
      | Returned exp =>
          match load_experiments fs data_path rest with
          | Raised e => Raised e
          | Returned exps => Returned (exp :: exps)
          end
      end
  end.

(** [f"{experiment_prefix}_{i+1}_{chain}_{ion}.tab"] *)
Definition experiment_file_name (experiment_prefix chain ion : string) (i : nat) : string :=
  experiment_prefix ++ "_" ++ str_nat (i + 1) ++ "_" ++ chain ++ "_" ++ ion ++ ".tab".

(** [SetOfExperiments.__init__] *)
Definition SetOfExperiments_init (fs : FileSystem)
    (data_path experiment_prefix ion chain : string) (no_experiments : Z)
  : outcome SetOfExperiments :=
  if negb (existsb (String.eqb chain) ["analysis"; "sidechain"]) then
    Raised (AssertionError ("Incorrect chain type: " ++ chain))
  else
    match dict_get magic_numbers chain with
    | None => Raised (KeyError chain)
    | Some magic =>
        let names := map (experiment_file_name experiment_prefix chain ion)
                         (range no_experiments) in
        match load_experiments fs data_path names with
        | Raised e => Raised e
        | Returned exps =>
            Returned {| partial_path := os_path_join data_path (experiment_prefix ++ "_");
                        ion := ion;
                        chain_type := chain;
                        no_experiments := no_experiments;
                        magic_number := magic;
                        experiments := exps |}
        end
    end.

(** What the methods hand to the outside: standard output and pyplot.  The
    calls are recorded in order; the sink itself is outside the module and
    is taken not to raise. *)
Inductive colour : Type :=
| Named (name : string)
| Grey (level : Q).

Inductive effect : Type :=
| Print (text : string)
| PltSubplots
| PltHist (values : list npfloat) (bins : nat)
| PltPlot (xs : list nat) (ys : list npfloat) (fmt : option string)
          (col : colour) (label : option string)
| PltLegend
| PltTitle (text : string)
| PltXlabel (text : string)
| PltYlabel (text : string)
| PltSavefig (path : string)
| PltClf.

(** The set a method runs on, and the effects emitted so far. *)
Record World : Type := {
  self : SetOfExperiments;
  emitted : list effect
}.

Definition emit (e : effect) : method World Datatypes.unit :=
  fun w => ({| self := self w; emitted := emitted w ++ [e] |}, Returned tt).

Definition set_experiments (s : SetOfExperiments) (exps : list Experiment) : SetOfExperiments :=
  {| partial_path := partial_path s;
     ion := ion s;
     chain_type := chain_type s;
     no_experiments := no_experiments s;
     magic_number := magic_number s;
     experiments := exps |}.

(** [[m(experiment) for experiment in self.experiments]]: each experiment
    is mutated in place, in order, up to the first one that raises. *)
Fixpoint each_experiment {A : Type} (m : method Experiment A) (exps : list Experiment)
  : list Experiment * outcome (list A) :=
  match exps with
  | [] => ([], Returned [])
  | e :: rest =>
      match m e with
      | (e', Raised err) => (e' :: rest, Raised err)
      | (e', Returned a) =>
          match each_experiment m rest with
          | (rest', Raised err) => (e' :: rest', Raised err)
          | (rest', Returned l) => (e' :: rest', Returned (a :: l))
          end
      end
  end.

Definition over_experiments {A : Type} (m : method Experiment A) : method World (list A) :=
  fun w =>
    let (exps, out) := each_experiment m (experiments (self w)) in
    ({| self := set_experiments (self w) exps; emitted := emitted w |}, out).

(** [self.experiments[0].columns[col].description] *)
Definition column_description (col : Z) : method World string :=
  fun w =>
    match experiments (self w) with
    | [] => (w, Raised (IndexError FirstExperiment))
    | e :: _ =>
        match list_item (columns e) col with
        | None => (w, Raised (IndexError (ColumnLabel col)))
        | Some c => (w, Returned (description c))
        end
    end.

(** Truth value of an optional [str] argument: [None] and the empty string
    are false. *)
Definition truthy (plotdir : option string) : bool :=
  match plotdir with
  | None => false
  | Some d => negb (String.eqb d EmptyString)
  end.

Definition or_empty (plotdir : option string) : string :=
  match plotdir with None => EmptyString | Some d => d end.

(** [SetOfExperiments.hist_of_entropy] *)
Definition hist_of_entropy (xcol ycol : Z) (plotdir : option string)
  : method World (list npfloat) :=
  entropies <- over_experiments (get_entropy xcol ycol) ;;
  (if truthy plotdir then
     xdesc <- column_description xcol ;;
     ydesc <- column_description ycol ;;
     w <- get ;;
     emit PltSubplots ;;;
     emit (PltHist entropies 5) ;;;
     emit (PltTitle (chain_type (self w) ++ " " ++ ion (self w))) ;;;
     emit (PltXlabel ("entropy " ++ xdesc ++ " vs. " ++ ydesc)) ;;;
     emit (PltYlabel "frequency") ;;;
     emit (PltSavefig (or_empty plotdir ++ "hist" ++ xdesc ++ "_" ++ ydesc ++ ".pdf")) ;;;
     emit PltClf
   else ret tt) ;;;
  ret entropies.

(** The call both distribution methods make for one mer. *)
Definition mer_entropies (xcol ycol : Z) (mer : nat) : method World (list npfloat) :=
  w <- get ;;
  let shift := (magic_number (self w) * Z.of_nat mer)%Z in
  hist_of_entropy (xcol + shift) (ycol + shift) None.

(** [list(range(1, no_mers+1))] *)
Definition first_mers (no_mers : Z) : list nat := seq 1 (Z.to_nat no_mers).

(** The three lists the percentile loop appends to. *)
Record bands : Type := {
  median_entropy : list npfloat;
  entropy_perc5 : list npfloat;
  entropy_perc95 : list npfloat
}.

(** Lines 174-178: the loop over mers. *)
Fixpoint percentile_loop (xcol ycol : Z) (mers : list nat) (acc : bands)
  : method World bands :=
  match mers with
  | [] => ret acc
  | mer :: rest =>
      entropies <- mer_entropies xcol ycol mer ;;
      let median := np_median entropies in
      perc5 <- lift (np_percentile entropies 5) ;;
      perc95 <- lift (np_percentile entropies 95) ;;
      percentile_loop xcol ycol rest
        {| median_entropy := median_entropy acc ++ [median];
           entropy_perc5 := entropy_perc5 acc ++ [perc5];
           entropy_perc95 := entropy_perc95 acc ++ [perc95] |}
  end.

Definition percentile_bands (xcol ycol : Z) (no_mers : Z) : method World bands :=
  percentile_loop xcol ycol (range no_mers)
    {| median_entropy := []; entropy_perc5 := []; entropy_perc95 := [] |}.

(** [SetOfExperiments.entropy_distribution_percentiles] *)
Definition entropy_distribution_percentiles (xcol ycol : Z) (plotdir : string) (no_mers : Z)
  : method World (list npfloat) :=
  b <- percentile_bands xcol ycol no_mers ;;
  xdesc <- column_description xcol ;;
  ydesc <- column_description ycol ;;
  w <- get ;;
  emit (PltPlot (first_mers no_mers) (median_entropy b) (Some "o--") (Named "red")
                (Some "median")) ;;;
  emit (PltPlot (first_mers no_mers) (entropy_perc5 b) (Some ":") (Named "red")
                (Some "5 and 95 perc.")) ;;;
  emit (PltPlot (first_mers no_mers) (entropy_perc95 b) (Some ":") (Named "red") None) ;;;
  emit PltLegend ;;;
  emit (PltTitle (chain_type (self w) ++ ", ion " ++ ion (self w))) ;;;
  emit (PltXlabel "number of first mer") ;;;
  emit (PltYlabel ("entropy  " ++ xdesc ++ " vs. " ++ ydesc)) ;;;
  emit (PltSavefig (os_path_join plotdir
          ("entropy_" ++ chain_type (self w) ++ "_" ++ ion (self w) ++ "_"
           ++ xdesc ++ "_" ++ ydesc ++ ".pdf"))) ;;;
  emit PltClf ;;;
  ret (median_entropy b).

(** [grid[i] = row] *)
Fixpoint list_set {A : Type} (grid : list A) (i : nat) (row : A) : list A :=
  match grid, i with
  | [], _ => []
  | _ :: rest, 0 => row :: rest
  | x :: rest, S i' => x :: list_set rest i' row
  end.

(** Lines 207-208: the loop that fills the grid, one mer at a time. *)
Fixpoint realisation_loop (xcol ycol : Z) (mers : list nat) (grid : list (list npfloat))
  : method World (list (list npfloat)) :=
  match mers with
  | [] => ret grid
  | mer :: rest =>
      entropies <- mer_entropies xcol ycol mer ;;
      realisation_loop xcol ycol rest (list_set grid mer entropies)
  end.

(** [[entropies[i][j] for i in range(no_mers)]] *)
Fixpoint realisation_column (grid : list (list npfloat)) (mers : list nat) (j : nat)
  : outcome (list npfloat) :=
  match mers with
  | [] => Returned []
  | i :: rest =>
      match nth_error (nth i grid []) j with
      | None => Raised (IndexError (RealisationSlot i j))
      | Some v =>
          match realisation_column grid rest j with
          | Raised e => Raised e
          | Returned l => Returned (v :: l)
          end
      end
  end.

(** [no_struct = 12] *)
Definition no_struct : nat := 12.

(** [SetOfExperiments.entropy_distribution_realisations]; it has no
    [return] statement. *)
Definition entropy_distribution_realisations (xcol ycol : Z) (plotdir : string) (no_mers : Z)
  : method World Datatypes.unit :=
  match last (map Some (first_mers no_mers)) None with
  | None => raise (IndexError LastFirstMer)
  | Some highest =>
      emit (Print ("highest first mer " ++ str_nat highest)) ;;;
      grid <- realisation_loop xcol ycol (range no_mers)
                (repeat (repeat (Fin 0%R) no_struct) (Z.to_nat no_mers)) ;;
      xdesc <- column_description xcol ;;
      ydesc <- column_description ycol ;;
      w <- get ;;
      for_each (fun j =>
          e <- lift (realisation_column grid (range no_mers) j) ;;
          emit (PltPlot (first_mers no_mers) e None
                  (Grey ((5 # 6) * (1 - inject_Z (Z.of_nat j) / inject_Z (Z.of_nat no_struct)))%Q)
                  (Some (str_nat (j + 1)))))
        (seq 0 no_struct) ;;;
      emit PltLegend ;;;
      emit (PltTitle (chain_type (self w) ++ ", ion " ++ ion (self w))) ;;;
      emit (PltXlabel "number of first mer") ;;;
      emit (PltYlabel ("entropy  " ++ xdesc ++ " vs. " ++ ydesc)) ;;;
      emit (PltSavefig (os_path_join plotdir
              ("entropy_reals_" ++ chain_type (self w) ++ "_" ++ ion (self w) ++ "_"
               ++ xdesc ++ "_" ++ ydesc ++ ".pdf"))) ;;;
      emit PltClf
  end.

Close Scope string_scope.

(* ================================================================== *)
(** ** Decision procedures and sample data used by the proofs *)

Definition ColumnMeaning_eqb (c d : ColumnMeaning) : bool :=
  String.eqb (description c) (description d) && String.eqb (unit c) (unit d).

(** The statement of the round trip for one layout, as a computation over
    all roles, mers, base columns and candidate columns. *)
Definition round_trip_check (chain : string) (offset : Z) (angles : list string) : bool :=
  let schema := schema_columns chain in
  forallb (fun role =>
    forallb (fun m =>
      forallb (fun base =>
        match nth_error schema base with
        | Some c =>
            if ColumnMeaning_eqb c (angle_column role 0) then
              let j := (Z.of_nat base + offset * Z.of_nat m)%Z in
              match list_item schema j with
              | Some c' => ColumnMeaning_eqb c' (angle_column role m)
              | None => false
              end
              && forallb (fun j' =>
                   match nth_error schema j' with
                   | Some c' =>
                       if String.eqb (description c') (angle_description role m)
                       then (Z.of_nat j' =? j)%Z else true
                   | None => true
                   end) (seq 0 (length schema))
            else true
        | None => true
        end) (seq 0 (length schema))) (seq 0 23)) angles.

(** The two layouts: the file convention of the set, the chain of the
    experiment it denotes, and the angle roles of that chain. *)
Definition layouts : list (string * string * list string) :=
  [("analysis"%string, "main chain"%string, main_chain_angles);
   ("sidechain"%string, "side chain"%string, side_chain_angles)].

(** Section 4.4 of the specification: the entropies of one column pair over
    all owned experiments, in realisation order. *)
Definition entropies_for (xcol ycol : Z) : method World (list npfloat) :=
  over_experiments (get_entropy xcol ycol).

(** Section 4.5 of the specification: the traversal both modes share, one
    entropy list per mer 0..N-1, at the columns shifted by [mer * offset]. *)
Definition per_mer_entropies (offset xcol ycol : Z) (no_mers : Z)
  : method World (list (list npfloat)) :=
  for_list (fun mer =>
              entropies_for (xcol + offset * Z.of_nat mer) (ycol + offset * Z.of_nat mer))
           (range no_mers).

(** What percentile mode hands to pyplot, in order, for the three lists
    of the loop and the two column descriptions. *)
Definition percentile_plot (s : SetOfExperiments) (plotdir : string) (no_mers : Z)
    (b : bands) (xdesc ydesc : string) : list effect :=
  [PltPlot (first_mers no_mers) (median_entropy b) (Some "o--"%string) (Named "red")
           (Some "median"%string);
   PltPlot (first_mers no_mers) (entropy_perc5 b) (Some ":"%string) (Named "red")
           (Some "5 and 95 perc."%string);
   PltPlot (first_mers no_mers) (entropy_perc95 b) (Some ":"%string) (Named "red") None;
   PltLegend;
   PltTitle (chain_type s ++ ", ion " ++ ion s)%string;
   PltXlabel "number of first mer";
   PltYlabel ("entropy  " ++ xdesc ++ " vs. " ++ ydesc)%string;
   PltSavefig (os_path_join plotdir
                 ("entropy_" ++ chain_type s ++ "_" ++ ion s ++ "_"
                  ++ xdesc ++ "_" ++ ydesc ++ ".pdf")%string);
   PltClf].

(** The three reductions of the per-mer entropy lists. *)
Definition reduce_bands (ents : list (list npfloat)) : bands :=
  {| median_entropy := map np_median ents;
     entropy_perc5 := map (fun l => percentile_linear l 5) ents;
     entropy_perc95 := map (fun l => percentile_linear l 95) ents |}.

(** The same set with another record of effects. *)
Definition with_emitted (w : World) (effects : list effect) : World :=
  {| self := self w; emitted := effects |}.

(** What realisation mode prints first. *)
Definition highest_first_mer (no_mers : Z) : effect :=
  Print ("highest first mer " ++ str_nat (Z.to_nat no_mers))%string.

(** The methods leave everything of a world but the experiments' tables. *)
Definition same_identity (w w' : World) : Prop :=
  emitted w' = emitted w
  /\ magic_number (self w') = magic_number (self w)
  /\ chain_type (self w') = chain_type (self w)
  /\ ion (self w') = ion (self w)
  /\ length (experiments (self w')) = length (experiments (self w))
  /\ map columns (experiments (self w')) = map columns (experiments (self w)).

Definition is_index_error (err : error) : Prop := exists site, err = IndexError site.

(** The row labels of the experiment's table, in order. *)
Definition labels (e : Experiment) : list Z := map fst (rows (dataframe e)).

(** [k] successive [get_entropy] calls on one experiment, with the column
    pairs given; a caller that catches what a call raises goes on with the
    same object. *)
Definition successive_calls (calls : list (Z * Z)) (e : Experiment) : Experiment :=
  fold_left (fun e c => fst (get_entropy (fst c) (snd c) e)) calls e.

(** The experiment [Experiment.__init__] builds from table [t] found at a
    path without 'sidechain'. *)
Definition experiment_of (t : Table) : Experiment :=
  {| dataframe := {| width := table_width t;
                     rows := combine (map Z.of_nat (seq 0 (length (cells t)))) (cells t) |};
     chain := "main chain";
     columns := schema_columns "main chain" |}.

(** [-width <= col < width] *)
Definition column_in_range (df : DataFrame) (col : Z) : Prop :=
  (- Z.of_nat (width df) <= col < Z.of_nat (width df))%Z.

(** One dropped row followed by the hundred pairs (k mod 10, k / 10):
    one sample for each of the 10 x 10 bins. *)
Definition uniform_pairs : list (Q * Q) :=
  (0, 0)%Q ::
  map (fun k => (inject_Z (Z.of_nat (k mod 10)), inject_Z (Z.of_nat (k / 10))))
      (seq 0 100).

(** A table of the main-chain width whose columns 8 and 9 hold the given
    pairs; every other cell is 0. *)
Definition angle_table (pairs : list (Q * Q)) : Table :=
  {| table_width := 100;
     cells := map (fun p => repeat 0%Q 8 ++ [fst p; snd p] ++ repeat 0%Q 90) pairs |}.

(** A file system that holds the given files. *)
Fixpoint files (fl : list (string * Table)) : FileSystem :=
  fun path =>
    match fl with
    | [] => None
    | (p, t) :: rest => if String.eqb p path then Some t else files rest path
    end.

(** Two realisations of the 'analysis' convention: after the drop the first
    keeps one sample, the second two samples in different bins. *)
Definition two_run_files : FileSystem :=
  files [("data/run_1_analysis_Ca.tab"%string, angle_table [(0, 0); (1, 1)]%Q);
         ("data/run_2_analysis_Ca.tab"%string, angle_table [(0, 0); (1, 1); (2, 2)]%Q)].

Definition two_run_set : SetOfExperiments :=
  {| partial_path := "data/run_";
     ion := "Ca";
     chain_type := "analysis";
     no_experiments := 2;
     magic_number := 4;
     experiments := [experiment_of (angle_table [(0, 0); (1, 1)]%Q);
                     experiment_of (angle_table [(0, 0); (1, 1); (2, 2)]%Q)] |}.

Definition two_run_world : World := {| self := two_run_set; emitted := [] |}.

(** The world the first traversal step leaves: every experiment has lost
    its first row. *)
Definition two_run_after : World :=
  {| self := set_experiments two_run_set
               (map (fun e => fst (drop_first_observations e)) (experiments two_run_set));
     emitted := [] |}.

(** A set of the 'analysis' convention over the given tables, as
    [SetOfExperiments.__init__] builds it from files that hold them. *)
Definition analysis_set (tables : list Table) : SetOfExperiments :=
  {| partial_path := "data/run_";
     ion := "Ca";
     chain_type := "analysis";
     no_experiments := Z.of_nat (length tables);
     magic_number := 4;
     experiments := map experiment_of tables |}.

Definition analysis_world (tables : list Table) : World :=
  {| self := analysis_set tables; emitted := [] |}.

(** The world with other experiments. *)
Definition with_experiments (w : World) (exps : list Experiment) : World :=
  {| self := set_experiments (self w) exps; emitted := emitted w |}.

(** An experiment after the drop of its first row. *)
Definition dropped (e : Experiment) : Experiment := fst (drop_first_observations e).

(** An experiment whose table has lost its first [n] rows. *)
Definition after_drops (n : nat) (e : Experiment) : Experiment :=
  {| dataframe := {| width := width (dataframe e);
                     rows := skipn n (rows (dataframe e)) |};
     chain := chain e;
     columns := columns e |}.

(** Linear interpolation in a sorted list of reals at a position given in
    hundredths of an index: what [np.percentile] computes at the virtual
    index [position / 100]. *)
Definition interpolate (ss : list R) (position : nat) : R :=
  let k := position / 100 in
  let lower := nth k ss 0%R in
  let upper := nth (Nat.min (k + 1) (length ss - 1)) ss 0%R in
  (lower + (upper - lower) * (INR (position mod 100) / 100))%R.

(** What realisation mode hands to pyplot after the print when all twelve
    slots can be read: one trajectory per slot 0..11, then the decoration. *)
Definition realisation_plot (s : SetOfExperiments) (plotdir : string) (no_mers : Z)
    (ents : list (list npfloat)) (xdesc ydesc : string) : list effect :=
  map (fun j =>
         PltPlot (first_mers no_mers) (map (fun row => nth j row NaN) ents) None
                 (Grey ((5 # 6) * (1 - inject_Z (Z.of_nat j)
                                       / inject_Z (Z.of_nat no_struct)))%Q)
                 (Some (str_nat (j + 1))))
      (seq 0 no_struct)
  ++ [PltLegend;
      PltTitle (chain_type s ++ ", ion " ++ ion s)%string;
      PltXlabel "number of first mer";
      PltYlabel ("entropy  " ++ xdesc ++ " vs. " ++ ydesc)%string;
      PltSavefig (os_path_join plotdir
                    ("entropy_reals_" ++ chain_type s ++ "_" ++ ion s ++ "_"
                     ++ xdesc ++ "_" ++ ydesc ++ ".pdf")%string);
      PltClf].

(** Twelve copies of one table. *)
Definition twelve_tables (t : Table) : list Table := repeat t 12.

(** The path [SetOfExperiments.__init__] reads realisation [i + 1] from. *)
Definition experiment_path (data_path experiment_prefix chain ion : string) (i : nat)
  : string :=
  os_path_join data_path (experiment_file_name experiment_prefix chain ion i).

(* ================================================================== *)
(** ** The plotting methods of [Experiment] (experiment.py, lines 53-107) *)

(** The pyplot calls the two methods make; as before they are recorded in
    order and taken not to raise. *)
Inductive figure_call : Type :=
| FigPlot (x y : list Q)
| FigSubplots
| FigHist2d (x y : list Q) (bins : nat) (cmap : string)
| FigColorbar (format : string)
| FigXlabel (text : string)
| FigYlabel (text : string)
| FigTitle (text : string)
| FigSavefig (path : string)
| FigClf
| FigShow.

(** The experiment a plotting method runs on, and what has been drawn. *)
Record Canvas : Type := {
  subject : Experiment;
  drawn : list figure_call
}.

Definition draw (c : figure_call) : method Canvas Datatypes.unit :=
  fun s => ({| subject := subject s; drawn := drawn s ++ [c] |}, Returned tt).

(** [self.columns[col]] *)
Definition column_meaning (col : Z) : method Canvas ColumnMeaning :=
  fun s =>
    match list_item (columns (subject s)) col with
    | None => (s, Raised (IndexError (ColumnLabel col)))
    | Some c => (s, Returned c)
    end.

(** [self.dataframe.iloc[:, col]] *)
Definition column_values (col : Z) : method Canvas (list Q) :=
  fun s => (s, iloc_column (dataframe (subject s)) col).

(** [str(z)] for an integer. *)
Definition str_int (z : Z) : string := NilEmpty.string_of_int (Z.to_int z).

(** [s.replace(' ', '')] *)
Fixpoint remove_spaces (s : string) : string :=
  match s with
  | EmptyString => EmptyString
  | String c rest =>
      if Ascii.eqb c (Ascii.ascii_of_nat 32) then remove_spaces rest
      else String c (remove_spaces rest)
  end.

(** The tail both methods share: [savefig] and [clf] when a plot name is
    given, [show] otherwise. *)
Definition save_or_show (plotname : option string) (file : string)
  : method Canvas Datatypes.unit :=
  if truthy plotname then
    draw (FigSavefig (or_empty plotname ++ file)%string) ;;; draw FigClf
  else draw FigShow.

(** [Experiment.plot_columns] *)
Definition plot_columns (ycol : Z) (plotname : option string)
  : method Canvas Datatypes.unit :=
  let xcol := 0%Z in
  xmeaning <- column_meaning xcol ;;
  ymeaning <- column_meaning ycol ;;
  s <- get ;;
  let myxlab := (description xmeaning ++ " [" ++ unit xmeaning ++ "]")%string in
  let myylab := (description ymeaning ++ " [" ++ unit ymeaning ++ "]")%string in
  let mytitle := (chain (subject s) ++ " " ++ description xmeaning ++ " vs "
                  ++ description ymeaning)%string in
  y <- column_values ycol ;;
  x <- column_values xcol ;;
  let y := correct_signs y in
  draw (FigPlot x y) ;;;
  draw (FigXlabel myxlab) ;;;
  draw (FigYlabel myylab) ;;;
  draw (FigTitle mytitle) ;;;
  save_or_show plotname
    ("series_" ++ remove_spaces (chain (subject s)) ++ "_" ++ str_int ycol ++ ".pdf")%string.

(** [Experiment.plot_histogram_2d]; the title is not an f-string. *)
Definition plot_histogram_2d (xcol ycol : Z) (plotname : option string)
  : method Canvas Datatypes.unit :=
  xmeaning <- column_meaning xcol ;;
  ymeaning <- column_meaning ycol ;;
  s <- get ;;
  let myxlab := (description xmeaning ++ " [" ++ unit xmeaning ++ "]")%string in
  let myylab := (description ymeaning ++ " [" ++ unit ymeaning ++ "]")%string in
  let mytitle := "{self.chain} Histogram 2D"%string in
  y <- column_values ycol ;;
  let y := correct_signs y in
  x <- column_values xcol ;;
  let x := correct_signs x in
  draw FigSubplots ;;;
  draw (FigHist2d x y 10 "Reds") ;;;
  draw (FigColorbar "%.1e") ;;;
  draw (FigXlabel myxlab) ;;;
  draw (FigYlabel myylab) ;;;
  draw (FigTitle mytitle) ;;;
  save_or_show plotname
    ("hist2D_" ++ remove_spaces (chain (subject s)) ++ "_" ++ str_int xcol ++ "_"
     ++ str_int ycol ++ ".pdf")%string.


(* ================================================================== *)
(** * Properties *)

(** ** The loop of [correct_signs] *)

Section CorrectSignsFacts.
Context {A : Type} `{Numeric A}.

Lemma negate_from_length k a : length (negate_from k a) = length a.
Proof.
  unfold negate_from.
  rewrite length_app, length_map, <- length_app, firstn_skipn. reflexivity.
Qed.

Lemma scan_step_length thres a i : length (scan_step thres a i) = length a.
Proof.
  unfold scan_step. destruct (flip_condition thres a i); auto using negate_from_length.
Qed.

Lemma fold_scan_length thres idx a :
  length (fold_left (scan_step thres) idx a) = length a.
Proof.
  revert a. induction idx as [|i idx IH]; intros a; simpl; auto.
  rewrite IH. apply scan_step_length.
Qed.

Lemma correct_signs_thres_length thres s :
  length (correct_signs_thres thres s) = length s.
Proof. apply fold_scan_length. Qed.

Lemma scan_step_cons thres x l i :
  scan_step thres (x :: l) (S i) = x :: scan_step thres l i.
Proof.
  unfold scan_step, flip_condition. simpl nth.
  destruct (flip_test thres (nth i l nzero) (nth (S i) l nzero)); reflexivity.
Qed.

Lemma fold_scan_cons thres x l k n :
  fold_left (scan_step thres) (seq (S k) n) (x :: l)
  = x :: fold_left (scan_step thres) (seq k n) l.
Proof.
  revert k l. induction n as [|n IH]; intros k l; simpl; auto.
  rewrite scan_step_cons. apply IH.
Qed.

(** The loop, unrolled once at the head of the array. *)
Lemma correct_signs_thres_cons2 thres x y t :
  correct_signs_thres thres (x :: y :: t)
  = x :: correct_signs_thres thres
           (if flip_test thres x y then map nneg (y :: t) else y :: t).
Proof.
  unfold correct_signs_thres at 1.
  replace (length (x :: y :: t) - 1) with (S (length t)) by (simpl; lia).
  rewrite <- cons_seq. simpl fold_left.
  unfold scan_step at 2, flip_condition. simpl nth.
  destruct (flip_test thres x y).
  - change (negate_from 1 (x :: y :: t)) with (x :: map nneg (y :: t)).
    rewrite fold_scan_cons. unfold correct_signs_thres.
    rewrite length_map. simpl length.
    replace (S (length t) - 1) with (length t) by lia. reflexivity.
  - rewrite fold_scan_cons. unfold correct_signs_thres.
    simpl length.
    replace (S (length t) - 1) with (length t) by lia. reflexivity.
Qed.

Lemma correct_signs_thres_short thres s :
  length s <= 1 -> correct_signs_thres thres s = s.
Proof.
  intros Hl. unfold correct_signs_thres.
  replace (length s - 1) with 0 by lia. reflexivity.
Qed.

Lemma correct_signs_thres_hd thres s :
  hd_error (correct_signs_thres thres s) = hd_error s.
Proof.
  destruct s as [|x [|y t]]; try reflexivity.
  rewrite correct_signs_thres_cons2. reflexivity.
Qed.




End CorrectSignsFacts.

Section CorrectSignsScan.
Context {A : Type} `{Numeric A}.



End CorrectSignsScan.

(** ** [correct_signs] on exact rationals *)

Lemma Qltb_lt x y : Qltb x y = true <-> (x < y)%Q.
Proof.
  unfold Qltb. rewrite negb_true_iff, <- not_true_iff_false, Qle_bool_iff.
  split; [apply Qnot_le_lt | apply Qlt_not_le].
Qed.

Lemma Qltb_ge x y : Qltb x y = false <-> (y <= x)%Q.
Proof.
  unfold Qltb. rewrite negb_false_iff. apply Qle_bool_iff.
Qed.

(** After a flip the pair no longer meets the condition: [x] is within
    [|y|/2] of [-y], hence at least [3|y|/2] away from [y]. *)
Lemma flip_test_flipped (x y : Q) :
  flip_test nhalf x y = true -> flip_test nhalf x (- y)%Q = false.
Proof.
  change (Qltb (Qabs (x + y)) ((1 # 2) * Qabs y) = true ->
          Qltb (Qabs (x + - y)) ((1 # 2) * Qabs (- y)) = false).
  rewrite Qltb_lt, Qltb_ge, Qabs_opp.
  apply (Qabs_case (x + y)); apply (Qabs_case (x + - y)); apply (Qabs_case y);
    intros; lra.
Qed.

(** Every working value is the input value up to sign. *)
Lemma nth_negate_from_abs (k j : nat) (a : list Q) :
  Qabs (nth j (negate_from k a) 0%Q) = Qabs (nth j a 0%Q).
Proof.
  revert j a. induction k as [|k IH]; intros j a.
  - unfold negate_from. simpl.
    change 0%Q with (Qopp 0%Q) at 1. rewrite map_nth.
    destruct (nth j a 0%Q) as [p q]. simpl. now rewrite Z.abs_opp.
  - destruct a as [|x a]; [destruct j; reflexivity|].
    destruct j as [|j]; [reflexivity|]. apply (IH j a).
Qed.

Lemma nth_fold_scan_abs (thres : Q) (idx : list nat) (j : nat) (a : list Q) :
  Qabs (nth j (fold_left (scan_step thres) idx a) 0%Q) = Qabs (nth j a 0%Q).
Proof.
  revert a. induction idx as [|i idx IH]; intros a; simpl; [reflexivity|].
  rewrite IH. unfold scan_step.
  destruct (flip_condition thres a i); [apply nth_negate_from_abs | reflexivity].
Qed.


(** ** Sign correction on numpy scalars *)

Section SettlingArithmetic.
Context {A : Type} `{Numeric A}.
Variable values : A -> Prop.
Hypothesis values_neg : forall x, values x -> values (nneg x).
Hypothesis values_settle :
  forall x y, values x -> values y ->
    flip_test nhalf x y = true -> flip_test nhalf x (nneg y) = false.

Lemma correct_signs_settles_len (n : nat) :
  forall s : list A, Forall values s -> length s <= n -> settled nhalf (correct_signs s).
Proof.
  induction n as [|n IH]; intros s Hv Hn.
  - destruct s; [exact I | simpl in Hn; lia].
  - destruct s as [|x [|y t]]; try exact I.
    unfold correct_signs. rewrite correct_signs_thres_cons2.
    set (w := if flip_test nhalf x y then map nneg (y :: t) else y :: t).
    inversion Hv as [|x0 l0 Hx Hyt]; subst.
    inversion Hyt as [|y0 l1 Hy Ht]; subst.
    assert (Hw : exists y', hd_error w = Some y' /\ flip_test nhalf x y' = false
                            /\ length w <= n /\ Forall values w).
    { subst w. destruct (flip_test nhalf x y) eqn:Hxy.
      - exists (nneg y). repeat split.
        + now apply values_settle.
        + simpl in *. rewrite length_map. lia.
        + apply Forall_forall. intros z Hz. apply in_map_iff in Hz.
          destruct Hz as (z0 & <- & Hz0). apply values_neg.
          rewrite Forall_forall in Hyt. now apply Hyt.
      - exists y. repeat split; [exact Hxy | simpl in *; lia | exact Hyt]. }
    destruct Hw as (y' & Hhd & Hxy' & Hlen & Hvw).
    pose proof (IH w Hvw Hlen) as Hs. unfold correct_signs in Hs.
    pose proof (correct_signs_thres_hd nhalf w) as Hh. rewrite Hhd in Hh.
    destruct (correct_signs_thres nhalf w) as [|z r]; [discriminate|].
    injection Hh as ->. split; assumption.
Qed.

End SettlingArithmetic.

(** Exact arithmetic settles every flipped pair, so on exact values the
    corrected series is always settled. *)
Lemma correct_signs_settled (s : list Q) : settled nhalf (correct_signs s).
Proof.
  apply (correct_signs_settles_len (fun _ : Q => True) (fun _ _ => I)
           (fun x y _ _ => flip_test_flipped x y) (length s) s).
  - apply Forall_forall. intros; exact I.
  - apply Nat.le_refl.
Qed.

Section WorkingValues.
Context {A : Type} `{Numeric A}.
Variable kept : A -> Prop.
Hypothesis kept_neg : forall x, kept x -> kept (nneg x).

(** What holds of an input value and is kept by negation holds of the
    working value at the same position. *)
Lemma nth_negate_from_kept (k j : nat) (a : list A) (d : A) :
  kept (nth j a d) -> kept (nth j (negate_from k a) d).
Proof.
  revert j a. induction k as [|k IH]; intros j a Hk.
  - unfold negate_from. simpl.
    destruct (Nat.lt_ge_cases j (length a)) as [Hj|Hj].
    + rewrite (nth_indep _ d (nneg d)) by (rewrite length_map; exact Hj).
      rewrite map_nth. apply kept_neg. exact Hk.
    + rewrite nth_overflow by (rewrite length_map; exact Hj).
      rewrite nth_overflow in Hk by exact Hj. exact Hk.
  - destruct a as [|x a]; [destruct j; exact Hk|].
    destruct j as [|j]; [exact Hk|]. apply (IH j a). exact Hk.
Qed.

Lemma nth_fold_scan_kept (thres : A) (idx : list nat) (j : nat) (a : list A) (d : A) :
  kept (nth j a d) -> kept (nth j (fold_left (scan_step thres) idx a) d).
Proof.
  revert a. induction idx as [|i idx IH]; intros a Hk; simpl; [exact Hk|].
  apply IH. unfold scan_step.
  destruct (flip_condition thres a i); [now apply nth_negate_from_kept | exact Hk].
Qed.

End WorkingValues.

(** *** binary64 and int64 facts *)

(** An absolute value is never below zero, [nan] included. *)
Lemma abs_not_below_zero (g : float) : PrimFloat.ltb (PrimFloat.abs g) 0%float = false.
Proof.
  rewrite FloatAxioms.ltb_spec, FloatAxioms.abs_spec.
  change (FloatOps.Prim2SF 0%float) with (SpecFloat.S754_zero false).
  destruct (FloatOps.Prim2SF g) as [s|s| |s m e]; reflexivity.
Qed.

Lemma abs_of_zero (f : float) : PrimFloat.eqb f 0%float = true -> PrimFloat.abs f = 0%float.
Proof.
  rewrite FloatAxioms.eqb_spec.
  change (FloatOps.Prim2SF 0%float) with (SpecFloat.S754_zero false).
  intros Hz. apply FloatAxioms.Prim2SF_inj. rewrite FloatAxioms.abs_spec.
  change (FloatOps.Prim2SF 0%float) with (SpecFloat.S754_zero false).
  destruct (FloatOps.Prim2SF f) as [s|s| |s m e]; try reflexivity;
    try (destruct s; discriminate Hz); discriminate Hz.
Qed.

Lemma opp_of_zero (f : float) :
  PrimFloat.eqb f 0%float = true -> PrimFloat.eqb (PrimFloat.opp f) 0%float = true.
Proof.
  rewrite !FloatAxioms.eqb_spec, FloatAxioms.opp_spec.
  change (FloatOps.Prim2SF 0%float) with (SpecFloat.S754_zero false).
  destruct (FloatOps.Prim2SF f) as [s|s| |s m e]; try (intros H; exact H);
    try (destruct s; discriminate).
Qed.

(** A converted unsigned integer is never below zero. *)
Lemma of_uint63_not_below_zero (k : PrimInt63.int) :
  PrimFloat.ltb (PrimFloat.of_uint63 k) 0%float = false.
Proof.
  rewrite FloatAxioms.ltb_spec, FloatAxioms.of_uint63_spec.
  change (FloatOps.Prim2SF 0%float) with (SpecFloat.S754_zero false).
  pose proof (Uint63.to_Z_bounded k) as Hb.
  unfold SpecFloat.binary_normalize.
  destruct (Uint63.to_Z k) as [|p|p]; [reflexivity| |lia].
  unfold SpecFloat.binary_round.
  destruct (SpecFloat.shl_align _ _ _) as [mz ez].
  unfold SpecFloat.binary_round_aux.
  destruct (SpecFloat.shr_fexp _ _ _ _ _) as [mrs1 e1].
  destruct (SpecFloat.shr_fexp _ _ _ _ _) as [mrs2 e2].
  destruct (SpecFloat.shr_m mrs2) as [|q|q]; try reflexivity.
  destruct (Z.leb _ _); reflexivity.
Qed.

Lemma wrap64_range (z : Z) : (- 2 ^ 63 <= wrap64 z < 2 ^ 63)%Z.
Proof.
  unfold wrap64. pose proof (Z.mod_pos_bound (z + 2 ^ 63) (2 ^ 64) ltac:(lia)). lia.
Qed.

Lemma wrap64_eq (z : Z) : exists q : Z, wrap64 z = (z + q * 2 ^ 64)%Z.
Proof.
  exists (- ((z + 2 ^ 63) / 2 ^ 64))%Z. unfold wrap64.
  rewrite Z.mod_eq by lia. lia.
Qed.

Lemma wrap64_unique (z r q : Z) :
  (- 2 ^ 63 <= r < 2 ^ 63)%Z -> r = (z + q * 2 ^ 64)%Z -> wrap64 z = r.
Proof.
  intros Hr Hq. unfold wrap64.
  rewrite <- (Z.mod_unique (z + 2 ^ 63) (2 ^ 64) (- q) (r + 2 ^ 63)); lia.
Qed.

Lemma wrap64_small (z : Z) : (- 2 ^ 63 <= z < 2 ^ 63)%Z -> wrap64 z = z.
Proof.
  intros Hz. apply (wrap64_unique z z 0); lia.
Qed.

Lemma wrap64_idem (z : Z) : wrap64 (wrap64 z) = wrap64 z.
Proof. apply wrap64_small, wrap64_range. Qed.

Lemma wrap64_opp_min (z : Z) : wrap64 (- z) = int64_min <-> wrap64 z = int64_min.
Proof.
  unfold int64_min. split; intros Hm.
  - destruct (wrap64_eq (- z)) as [q Hq]. apply (wrap64_unique z _ (- q - 1)); lia.
  - destruct (wrap64_eq z) as [q Hq]. apply (wrap64_unique (- z) _ (- q - 1)); lia.
Qed.

Lemma wrap64_abs_zero (b : Z) : wrap64 b = 0%Z -> wrap64 (Z.abs b) = 0%Z.
Proof.
  intros Hb. destruct (wrap64_eq b) as [q Hq]. rewrite Hb in Hq.
  apply (wrap64_unique (Z.abs b) 0 (- Z.abs q)); lia.
Qed.

Lemma wrap64_opp_zero (b : Z) : wrap64 b = 0%Z -> wrap64 (- b) = 0%Z.
Proof.
  intros Hb. destruct (wrap64_eq b) as [q Hq]. rewrite Hb in Hq.
  apply (wrap64_unique (- b) 0 (- q)); lia.
Qed.

Lemma wrap64_add_zero (a b : Z) : wrap64 b = 0%Z -> wrap64 (a + b) = wrap64 a.
Proof.
  intros Hb. destruct (wrap64_eq b) as [q Hq]. rewrite Hb in Hq.
  destruct (wrap64_eq a) as [q' Hq'].
  apply (wrap64_unique (a + b) _ (q' + q)); [apply wrap64_range | lia].
Qed.

Lemma float_of_nonnegative (v : Z) :
  (0 <= v)%Z -> PrimFloat.ltb (float_of_int64 v) 0%float = false.
Proof.
  intros Hv. unfold float_of_int64.
  destruct (Z.ltb_spec v 0); [lia|]. apply of_uint63_not_below_zero.
Qed.

(** With a zero successor the test reads [|x + 0| < 0.5 * 0]: false, unless
    the int64 sum is the one value whose absolute value wraps. *)
Lemma flip_test_zero_successor (x y : npscalar) :
  zero_valued y = true -> is_int64_min x = false -> flip_test nhalf x y = false.
Proof.
  intros Hy Hx. unfold flip_test.
  assert (Hhalf : nmul nhalf (nabs y) = F64 0%float).
  { destruct y as [b|g]; cbn [zero_valued] in Hy;
      cbn [nmul nabs nhalf npscalar_Numeric as_float64]; f_equal.
    - apply Z.eqb_eq in Hy. rewrite (wrap64_abs_zero b Hy). reflexivity.
    - rewrite (abs_of_zero g Hy). reflexivity. }
  rewrite Hhalf.
  destruct x as [a|f], y as [b|g]; cbn [nadd nabs nltb npscalar_Numeric as_float64];
    try apply abs_not_below_zero.
  cbn [is_int64_min] in Hx. apply Z.eqb_neq in Hx.
  cbn [zero_valued] in Hy. apply Z.eqb_eq in Hy.
  apply float_of_nonnegative.
  rewrite (wrap64_add_zero a b Hy).
  pose proof (wrap64_range a) as Hr. unfold int64_min in Hx.
  rewrite wrap64_small by lia. lia.
Qed.

Lemma zero_valued_neg (y : npscalar) : zero_valued y = true -> zero_valued (nneg y) = true.
Proof.
  destruct y as [b|g]; cbn [zero_valued nneg npscalar_Numeric]; intros Hy.
  - apply Z.eqb_eq in Hy. apply Z.eqb_eq. rewrite wrap64_idem.
    now apply wrap64_opp_zero.
  - now apply opp_of_zero.
Qed.

Lemma not_int64_min_neg (x : npscalar) : is_int64_min x = false -> is_int64_min (nneg x) = false.
Proof.
  destruct x as [a|f]; cbn [is_int64_min nneg npscalar_Numeric]; [|reflexivity].
  rewrite !Z.eqb_neq, wrap64_idem. intros Hx Hc. apply Hx.
  now apply wrap64_opp_min.
Qed.




(** C9, as the code has it.  A series of length 0 or 1 is returned
    unchanged, whatever its element type.  On int64 and float64 series, at
    an index i whose successor holds 0 in the input, the flip condition is
    false on the working values of iteration i and that iteration changes
    nothing (the comparison involves no division, and [nan] or infinite
    neighbours change nothing), unless the element at i is the int64
    -2**63, whose absolute value wraps onto itself. *)
Theorem correct_signs_edge_cases :
  (forall (A : Type) (N : Numeric A) (series : list A),
      length series <= 1 -> correct_signs series = series)
  /\ (forall (series : list npscalar) (i : nat),
         zero_valued (nth (S i) series nzero) = true ->
         is_int64_min (nth i series nzero) = false ->
         let working := fold_left (scan_step nhalf) (seq 0 i) series in
         flip_condition nhalf working i = false
         /\ scan_step nhalf working i = working).
Proof.
  split.
  - intros A N series Hl. now apply correct_signs_thres_short.
  - intros series i Hz Hm working.
    assert (Hc : flip_condition nhalf working i = false).
    { unfold flip_condition. apply flip_test_zero_successor; subst working.
      - apply (nth_fold_scan_kept (fun y => zero_valued y = true) zero_valued_neg).
        exact Hz.
      - apply (nth_fold_scan_kept (fun x => is_int64_min x = false) not_int64_min_neg).
        exact Hm. }
    split; [exact Hc|]. unfold scan_step. now rewrite Hc.
Qed.

Lemma correct_signs_edge_cases_witness :
  correct_signs [F64 3%float] = [F64 3%float]
  /\ (let working := fold_left (scan_step nhalf) (seq 0 1)
                       [F64 1; F64 (-0.9); F64 0]%float in
      flip_condition nhalf working 1 = false
      /\ scan_step nhalf working 1 = working)
  /\ (let working := fold_left (scan_step nhalf) (seq 0 1)
                       [I64 10; I64 (-9); I64 0] in
      flip_condition nhalf working 1 = false
      /\ scan_step nhalf working 1 = working).
Proof.
  destruct correct_signs_edge_cases as [Hshort Hzero]. split; [|split].
  - apply Hshort. simpl. lia.
  - apply (Hzero [F64 1; F64 (-0.9); F64 0]%float 1); vm_compute; reflexivity.
  - apply (Hzero [I64 10; I64 (-9); I64 0] 1); vm_compute; reflexivity.
Defined.

(** C9, as stated, fails on an int64 series: the successor of index
    0 holds 0, yet [-2**63 + 0] has the absolute value -2**63, which is
    below [0.5 * 0]; the test passes and the rest of the series is
    negated. *)
Lemma correct_signs_flips_at_zero_successor :
  let s := [I64 int64_min; I64 0; I64 5] in
  nth 1 s nzero = I64 0
  /\ flip_condition nhalf s 0 = true
  /\ correct_signs s = [I64 int64_min; I64 0; I64 (-5)].
Proof.
  split; [reflexivity|]. split; vm_compute; reflexivity.
Qed.

(** ** The column schema and the mer offset *)

Lemma ColumnMeaning_eqb_eq c d : ColumnMeaning_eqb c d = true <-> c = d.
Proof.
  unfold ColumnMeaning_eqb. rewrite andb_true_iff, !String.eqb_eq.
  destruct c, d; simpl. split.
  - intros [-> ->]. reflexivity.
  - intros [= -> ->]. split; reflexivity.
Qed.

Lemma round_trip_check_sound chain offset angles :
  round_trip_check chain offset angles = true ->
  forall (role : string) (m base : nat),
    In role angles -> m < 23 ->
    nth_error (schema_columns chain) base = Some (angle_column role 0) ->
    let j := (Z.of_nat base + offset * Z.of_nat m)%Z in
    list_item (schema_columns chain) j = Some (angle_column role m)
    /\ forall j' : nat,
         option_map description (nth_error (schema_columns chain) j')
         = Some (angle_description role m) ->
         Z.of_nat j' = j.
Proof.
  unfold round_trip_check. cbv zeta. intros Hc role m base Hrole Hm Hbase.
  apply (proj1 (forallb_forall _ _)) with (x := role) in Hc; [|exact Hrole].
  apply (proj1 (forallb_forall _ _)) with (x := m) in Hc; [|apply in_seq; lia].
  apply (proj1 (forallb_forall _ _)) with (x := base) in Hc.
  2:{ apply in_seq. split; [lia|]. rewrite Nat.add_0_l. apply nth_error_Some.
      rewrite Hbase. discriminate. }
  rewrite Hbase in Hc.
  assert (He : ColumnMeaning_eqb (angle_column role 0) (angle_column role 0) = true)
    by now apply ColumnMeaning_eqb_eq.
  rewrite He in Hc. apply andb_true_iff in Hc. destruct Hc as [Hland Huniq].
  split.
  - destruct (list_item (schema_columns chain) _) as [c'|]; [|discriminate].
    apply ColumnMeaning_eqb_eq in Hland. now subst c'.
  - intros j' Hj'.
    destruct (nth_error (schema_columns chain) j') as [c'|] eqn:Hn; [|discriminate].
    apply (proj1 (forallb_forall _ _)) with (x := j') in Huniq.
    2:{ apply in_seq. split; [lia|]. rewrite Nat.add_0_l. apply nth_error_Some.
        rewrite Hn. discriminate. }
    rewrite Hn in Huniq. simpl in Hj'. injection Hj' as Hd.
    rewrite Hd, String.eqb_refl in Huniq. now apply Z.eqb_eq.
Qed.

Lemma round_trip_main_chain : round_trip_check "main chain" 4 main_chain_angles = true.
Proof. vm_compute. reflexivity. Qed.

Lemma round_trip_side_chain : round_trip_check "side chain" 1 side_chain_angles = true.
Proof. vm_compute. reflexivity. Qed.

(** C4. For both layouts, every angle role and every mer index m in 0..22:
    when [base] is the column of the role's entry for mer 1, the column
    [base + m * mer_offset] (offset 4 for 'analysis' / main chain, 1 for
    'sidechain' / side chain) holds the entry described
    "{role} mers {m+1}, {m+2}", and no other column has that description. *)
Theorem mer_offset_round_trip :
  forall (mode chain : string) (angles : list string) (offset : Z),
    In (mode, chain, angles) layouts ->
    dict_get magic_numbers mode = Some offset ->
    forall (role : string) (m base : nat),
      In role angles -> m < 23 ->
      nth_error (schema_columns chain) base = Some (angle_column role 0) ->
      let j := (Z.of_nat base + offset * Z.of_nat m)%Z in
      list_item (schema_columns chain) j = Some (angle_column role m)
      /\ description (angle_column role m)
         = (role ++ " mers " ++ str_nat (m + 1) ++ ", " ++ str_nat (m + 2))%string
      /\ forall j' : nat,
           option_map description (nth_error (schema_columns chain) j')
           = Some (angle_description role m) ->
           Z.of_nat j' = j.
Proof.
  intros mode chain angles offset Hl Hoff role m base Hrole Hm Hbase j.
  assert (Hc : round_trip_check chain offset angles = true).
  { destruct Hl as [Hl | [Hl | []]]; injection Hl as <- <- <-;
      injection Hoff as <-.
    - exact round_trip_main_chain.
    - exact round_trip_side_chain. }
  destruct (round_trip_check_sound _ _ _ Hc role m base Hrole Hm Hbase) as [H1 H2].
  split; [exact H1 | split; [reflexivity | exact H2]].
Qed.

Lemma mer_offset_round_trip_witness :
  list_item (schema_columns "main chain"%string) (Z.of_nat 10 + 4 * Z.of_nat 5)%Z
  = Some (angle_column "ϕ₁₃"%string 5)
  /\ description (angle_column "ϕ₁₃"%string 5) = "ϕ₁₃ mers 6, 7"%string
  /\ forall j' : nat,
       option_map description (nth_error (schema_columns "main chain"%string) j')
       = Some (angle_description "ϕ₁₃"%string 5) ->
       Z.of_nat j' = (Z.of_nat 10 + 4 * Z.of_nat 5)%Z.
Proof.
  apply (mer_offset_round_trip "analysis"%string "main chain"%string
           main_chain_angles 4%Z).
  - left. reflexivity.
  - reflexivity.
  - simpl. tauto.
  - lia.
  - reflexivity.
Defined.

(** ** Construction: chain classification *)

Lemma Experiment_init_returns fs filepath t :
  fs filepath = Some t ->
  exists df,
    Experiment_init fs filepath
    = Returned {| dataframe := df;
                  chain := chain_of_path filepath;
                  columns := schema_columns (chain_of_path filepath) |}.
Proof.
  intros Hf. unfold Experiment_init, read_csv. rewrite Hf. eexists. reflexivity.
Qed.

Lemma not_in_chain_names (chain : string) :
  chain <> "analysis"%string -> chain <> "sidechain"%string ->
  existsb (String.eqb chain) ["analysis"%string; "sidechain"%string] = false.
Proof.
  intros Ha Hs. simpl.
  apply String.eqb_neq in Ha, Hs. now rewrite Ha, Hs.
Qed.

(** C5, as the code has it.  [Experiment.__init__] never rejects a path for
    its chain: a readable path that does not contain 'sidechain' is
    classified 'main chain' by default and gets the 100-entry schema, one
    that contains it is 'side chain' with 77 entries.  Only
    [SetOfExperiments.__init__] fails fast, by its assertion, on a chain
    name other than 'analysis' and 'sidechain'. *)
Theorem chain_classification_defaults :
  (forall (fs : FileSystem) (filepath : string) (t : Table),
      fs filepath = Some t ->
      exists e,
        Experiment_init fs filepath = Returned e
        /\ chain e = (if contains "sidechain" filepath
                      then "side chain" else "main chain")%string
        /\ columns e = schema_columns (chain e)
        /\ length (columns e) = if contains "sidechain" filepath then 77 else 100)
  /\ (forall (fs : FileSystem) (data_path experiment_prefix ion chain : string) (n : Z),
         chain <> "analysis"%string -> chain <> "sidechain"%string ->
         SetOfExperiments_init fs data_path experiment_prefix ion chain n
         = Raised (AssertionError ("Incorrect chain type: " ++ chain)%string)).
Proof.
  split.
  - intros fs filepath t Hf.
    destruct (Experiment_init_returns fs filepath t Hf) as [df Hdf].
    eexists. split; [exact Hdf|]. simpl. unfold chain_of_path.
    destruct (contains "sidechain" filepath); repeat split; reflexivity.
  - intros fs data_path experiment_prefix ion chain n Ha Hs.
    unfold SetOfExperiments_init.
    rewrite (not_in_chain_names chain Ha Hs). reflexivity.
Qed.

Lemma chain_classification_defaults_witness :
  (exists e,
      Experiment_init (files [("data/run_1_backbone_Ca.tab"%string, angle_table [])])
                      "data/run_1_backbone_Ca.tab"
      = Returned e
      /\ chain e = "main chain"%string
      /\ columns e = schema_columns (chain e)
      /\ length (columns e) = 100)
  /\ SetOfExperiments_init (files []) "data" "run" "Ca" "backbone" 12
     = Raised (AssertionError "Incorrect chain type: backbone").
Proof.
  destruct chain_classification_defaults as [Hexp Hset]. split.
  - apply (Hexp (files [("data/run_1_backbone_Ca.tab"%string, angle_table [])])
                "data/run_1_backbone_Ca.tab"%string (angle_table [])).
    reflexivity.
  - apply (Hset (files []) "data" "run" "Ca" "backbone" 12%Z)%string; discriminate.
Defined.

(** C5, as stated, fails: this path names neither chain convention, the
    file is readable, and construction returns an experiment with the
    main-chain schema instead of raising. *)
Lemma malformed_chain_defaults_to_main_chain :
  let path := "data/run_1_backbone_Ca.tab"%string in
  contains "analysis" path = false
  /\ contains "sidechain" path = false
  /\ Experiment_init (files [(path, angle_table [(1, 2)%Q])]) path
     = Returned {| dataframe := {| width := 100;
                                   rows := [(0%Z, repeat 0%Q 8 ++ [1; 2]%Q ++ repeat 0%Q 90)] |};
                   chain := "main chain";
                   columns := schema_columns "main chain" |}.
Proof. vm_compute. repeat split. Qed.

(** ** The first-row drop of [get_entropy] *)

Lemma filter_other_labels (label : Z) (l : list (Z * list Q)) :
  ~ In label (map fst l) ->
  filter (fun r => negb (Z.eqb (fst r) label)) l = l.
Proof.
  induction l as [|r l IH]; intros Hn; simpl; [reflexivity|].
  simpl in Hn. destruct (Z.eqb_spec (fst r) label) as [He|He].
  - exfalso. apply Hn. now left.
  - simpl. rewrite IH; [reflexivity|]. intros Hin. apply Hn. now right.
Qed.

Lemma map_fst_combine {A B : Type} (l : list A) :
  forall l' : list B, length l = length l' -> map fst (combine l l') = l.
Proof.
  induction l as [|a l IH]; intros [|b l'] Hl; simpl in *; try discriminate; auto.
  f_equal. apply IH. lia.
Qed.

Lemma range_labels_NoDup (n a : nat) : NoDup (map Z.of_nat (seq a n)).
Proof.
  revert a. induction n as [|n IH]; intros a; simpl; constructor; auto.
  rewrite in_map_iff. intros (b & Hb & Hin).
  apply Nat2Z.inj in Hb. subst b. apply in_seq in Hin. lia.
Qed.

Lemma read_csv_labels fs filepath df :
  read_csv fs filepath = Returned df -> NoDup (map fst (rows df)).
Proof.
  unfold read_csv. destruct (fs filepath) as [t|]; [|discriminate].
  intros [= <-]. simpl.
  rewrite map_fst_combine by (now rewrite length_map, length_seq).
  apply range_labels_NoDup.
Qed.

(** The state a [get_entropy] call leaves is the state its first line
    leaves. *)
Lemma get_entropy_state xcol ycol e :
  fst (get_entropy xcol ycol e) = fst (drop_first_observations e).
Proof.
  unfold get_entropy, bind, get, lift, ret.
  destruct (drop_first_observations e) as [e' [[]|err]]; simpl; [|reflexivity].
  destruct (iloc_column (dataframe e') ycol); simpl; [|reflexivity].
  destruct (iloc_column (dataframe e') xcol); reflexivity.
Qed.

Lemma drop_first_rows e r rest :
  rows (dataframe e) = r :: rest ->
  NoDup (labels e) ->
  drop_first_observations e
  = ({| dataframe := {| width := width (dataframe e); rows := rest |};
        chain := chain e;
        columns := columns e |}, Returned tt).
Proof.
  intros Hr Hn. unfold drop_first_observations, drop_label. rewrite Hr.
  unfold labels in Hn. rewrite Hr in Hn. simpl in Hn.
  apply NoDup_cons_iff in Hn. destruct Hn as [Hnot _].
  simpl filter. rewrite Z.eqb_refl. simpl.
  rewrite (filter_other_labels _ _ Hnot). reflexivity.
Qed.

Lemma successive_calls_rows calls :
  forall e,
    NoDup (labels e) ->
    length calls <= length (rows (dataframe e)) ->
    rows (dataframe (successive_calls calls e))
    = skipn (length calls) (rows (dataframe e))
    /\ width (dataframe (successive_calls calls e)) = width (dataframe e)
    /\ chain (successive_calls calls e) = chain e
    /\ columns (successive_calls calls e) = columns e.
Proof.
  induction calls as [|c calls IH]; intros e Hn Hl.
  - simpl. auto.
  - destruct (rows (dataframe e)) as [|r rest] eqn:Hr; [simpl in Hl; lia|].
    simpl successive_calls. unfold successive_calls in *. simpl fold_left.
    rewrite get_entropy_state, (drop_first_rows e r rest Hr Hn). simpl fst.
    match goal with |- context [fold_left _ calls ?x] => set (e1 := x) end.
    assert (Hn1 : NoDup (labels e1)).
    { unfold labels in *. rewrite Hr in Hn. simpl in *.
      now apply NoDup_cons_iff in Hn. }
    assert (Hl1 : length calls <= length (rows (dataframe e1))).
    { simpl in *. lia. }
    destruct (IH e1 Hn1 Hl1) as (H1 & H2 & H3 & H4).
    rewrite H1, H2, H3, H4. simpl. auto.
Qed.

(** C8. The rows of a constructed experiment carry distinct labels, and on
    such an experiment k successive [get_entropy] calls (k at most the
    number of rows) leave exactly the rows after the first k, in order and
    unchanged, and the same width, chain and schema: each call removes the
    first row, whatever it then returns or raises, and nothing guards
    against the repetition. *)
Theorem get_entropy_drops_first_row_each_call :
  (forall fs filepath e,
      Experiment_init fs filepath = Returned e -> NoDup (labels e))
  /\ (forall (e : Experiment) (calls : list (Z * Z)),
         NoDup (labels e) ->
         length calls <= length (rows (dataframe e)) ->
         let e' := successive_calls calls e in
         rows (dataframe e') = skipn (length calls) (rows (dataframe e))
         /\ length (rows (dataframe e')) + length calls = length (rows (dataframe e))
         /\ width (dataframe e') = width (dataframe e)
         /\ chain e' = chain e
         /\ columns e' = columns e).
Proof.
  split.
  - intros fs filepath e. unfold Experiment_init.
    destruct (read_csv fs filepath) as [df|err] eqn:Hdf; [|discriminate].
    intros [= <-]. unfold labels. simpl. eapply read_csv_labels, Hdf.
  - intros e calls Hn Hl e'.
    destruct (successive_calls_rows calls e Hn Hl) as (H1 & H2 & H3 & H4).
    subst e'. repeat split; try assumption.
    rewrite H1, length_skipn. lia.
Qed.

Lemma get_entropy_drops_first_row_each_call_witness :
  let e := experiment_of (angle_table [(1, 2); (3, 4); (5, 6)]%Q) in
  let e' := successive_calls [(8, 9); (300, 9)]%Z e in
  rows (dataframe e') = skipn 2 (rows (dataframe e))
  /\ length (rows (dataframe e')) + 2 = length (rows (dataframe e))
  /\ width (dataframe e') = width (dataframe e)
  /\ chain e' = chain e
  /\ columns e' = columns e.
Proof.
  intros e.
  apply (proj2 get_entropy_drops_first_row_each_call e [(8, 9); (300, 9)]%Z).
  - apply (proj1 get_entropy_drops_first_row_each_call
             (files [("run_1_analysis_Ca.tab"%string,
                      angle_table [(1, 2); (3, 4); (5, 6)]%Q)])
             "run_1_analysis_Ca.tab"%string e).
    reflexivity.
  - simpl. lia.
Defined.

(** ** The 2D histogram counts every sample once *)

Lemma Qminimum_le_start l : forall x, (Qminimum x l <= x)%Q.
Proof.
  unfold Qminimum. induction l as [|v l IH]; intros x; simpl.
  - apply Qle_refl.
  - destruct (Qltb v x) eqn:Hv.
    + apply Qltb_lt in Hv. eapply Qle_trans; [apply IH|]. now apply Qlt_le_weak.
    + apply IH.
Qed.

Lemma Qminimum_le l : forall x v, In v (x :: l) -> (Qminimum x l <= v)%Q.
Proof.
  unfold Qminimum. induction l as [|w l IH]; intros x v Hin; simpl.
  - destruct Hin as [<- | []]. apply Qle_refl.
  - destruct (Qltb w x) eqn:Hw.
    + apply Qltb_lt in Hw. destruct Hin as [<- | [<- | Hin]].
      * eapply Qle_trans; [apply (Qminimum_le_start l w)|]. now apply Qlt_le_weak.
      * apply (Qminimum_le_start l w).
      * apply IH. now right.
    + apply Qltb_ge in Hw. destruct Hin as [<- | [<- | Hin]].
      * apply (Qminimum_le_start l x).
      * eapply Qle_trans; [apply (Qminimum_le_start l x)|]. exact Hw.
      * apply IH. now right.
Qed.

Lemma Qmaximum_ge_start l : forall x, (x <= Qmaximum x l)%Q.
Proof.
  unfold Qmaximum. induction l as [|v l IH]; intros x; simpl.
  - apply Qle_refl.
  - destruct (Qltb x v) eqn:Hv.
    + apply Qltb_lt in Hv. eapply Qle_trans; [|apply IH]. now apply Qlt_le_weak.
    + apply IH.
Qed.

Lemma Qmaximum_ge l : forall x v, In v (x :: l) -> (v <= Qmaximum x l)%Q.
Proof.
  unfold Qmaximum. induction l as [|w l IH]; intros x v Hin; simpl.
  - destruct Hin as [<- | []]. apply Qle_refl.
  - destruct (Qltb x w) eqn:Hw.
    + apply Qltb_lt in Hw. destruct Hin as [<- | [<- | Hin]].
      * eapply Qle_trans; [|apply (Qmaximum_ge_start l w)]. now apply Qlt_le_weak.
      * apply (Qmaximum_ge_start l w).
      * apply IH. now right.
    + apply Qltb_ge in Hw. destruct Hin as [<- | [<- | Hin]].
      * apply (Qmaximum_ge_start l x).
      * eapply Qle_trans; [|apply (Qmaximum_ge_start l x)]. exact Hw.
      * apply IH. now right.
Qed.

(** The range of an axis is not degenerate and holds every sample. *)
Lemma outer_edges_spec a :
  (fst (outer_edges a) < snd (outer_edges a))%Q
  /\ forall v, In v a -> (fst (outer_edges a) <= v <= snd (outer_edges a))%Q.
Proof.
  destruct a as [|x l]; simpl.
  - split; [reflexivity | intros v []].
  - pose proof (Qminimum_le l x) as Hmin. pose proof (Qmaximum_ge l x) as Hmax.
    assert (Hmm : (Qminimum x l <= Qmaximum x l)%Q).
    { eapply Qle_trans; [apply Hmin | apply Hmax]; now left. }
    destruct (Qeq_bool (Qminimum x l) (Qmaximum x l)) eqn:He; simpl.
    + apply Qeq_bool_iff in He. split.
      * lra.
      * intros v Hv. specialize (Hmin v Hv). specialize (Hmax v Hv). lra.
    + apply Qeq_bool_neq in He. split.
      * apply Qle_lteq in Hmm. destruct Hmm as [Hlt|Heq]; [exact Hlt | contradiction].
      * intros v Hv. split; [now apply Hmin | now apply Hmax].
Qed.

Lemma searchsorted_right_all edges v :
  (forall e, In e edges -> (e <= v)%Q) ->
  searchsorted_right edges v = length edges.
Proof.
  induction edges as [|e rest IH]; intros Hall; simpl; [reflexivity|].
  assert (He : Qle_bool e v = true) by (apply Qle_bool_iff, Hall; now left).
  rewrite He, IH; [reflexivity|]. intros e' He'. apply Hall. now right.
Qed.

Lemma searchsorted_right_below_last l h v :
  ~ (h <= v)%Q -> searchsorted_right (l ++ [h]) v <= length l.
Proof.
  intros Hh. induction l as [|e l IH]; simpl.
  - destruct (Qle_bool h v) eqn:He; [|lia].
    apply Qle_bool_iff in He. contradiction.
  - destruct (Qle_bool e v); lia.
Qed.

Lemma searchsorted_right_first e rest v :
  (e <= v)%Q -> 1 <= searchsorted_right (e :: rest) v.
Proof.
  intros He. apply Qle_bool_iff in He. simpl. rewrite He. lia.
Qed.

Lemma linspace_edges_le lo hi bins e :
  0 < bins -> (lo < hi)%Q -> In e (linspace lo hi bins) -> (e <= hi)%Q.
Proof.
  intros Hb Hlt Hin. unfold linspace in Hin. apply in_app_or in Hin.
  destruct Hin as [Hin | [<- | []]]; [|apply Qle_refl].
  apply in_map_iff in Hin. destruct Hin as (j & <- & Hj). apply in_seq in Hj.
  set (n := inject_Z (Z.of_nat bins)).
  set (step := ((hi - lo) / n)%Q).
  assert (Hn : (0 < n)%Q).
  { subst n. change 0%Q with (inject_Z 0). rewrite <- Zlt_Qlt. lia. }
  assert (Hstep : (n * step == hi - lo)%Q).
  { subst step. field. intros Hz. rewrite Hz in Hn. now apply Qlt_irrefl in Hn. }
  assert (Hs0 : (0 <= step)%Q).
  { subst step. apply Qle_shift_div_l; [exact Hn|]. lra. }
  assert (Hjn : (inject_Z (Z.of_nat j) <= n)%Q).
  { subst n. rewrite <- Zle_Qle. lia. }
  pose proof (Qmult_le_compat_r _ _ step Hjn Hs0) as Hm. lra.
Qed.

Lemma linspace_cons lo hi bins :
  0 < bins ->
  exists rest,
    linspace lo hi bins
    = (inject_Z (Z.of_nat 0) * ((hi - lo) / inject_Z (Z.of_nat bins)) + lo)%Q :: rest.
Proof.
  intros Hb. unfold linspace. destruct bins as [|b]; [lia|].
  simpl seq. simpl map. eexists. reflexivity.
Qed.

Lemma linspace_last lo hi bins : last (linspace lo hi bins) 0%Q = hi.
Proof. unfold linspace. apply last_last. Qed.

Lemma linspace_length lo hi bins : length (linspace lo hi bins) = S bins.
Proof. unfold linspace. rewrite length_app, length_map, length_seq. simpl. lia. Qed.

(** Every sample of an axis lands in one of the inner bins 1..bins. *)
Lemma bin_number_range a bins v :
  0 < bins -> In v a ->
  1 <= bin_number (axis_edges bins a) v <= bins.
Proof.
  intros Hb Hin. destruct (outer_edges_spec a) as [Hlt Hall].
  specialize (Hall v Hin). unfold bin_number, axis_edges.
  set (lo := fst (outer_edges a)) in *. set (hi := snd (outer_edges a)) in *.
  rewrite linspace_last.
  destruct (Qeq_bool v hi) eqn:He.
  - apply Qeq_bool_iff in He.
    rewrite searchsorted_right_all, linspace_length; [lia|].
    intros e Hine. rewrite He. now apply (linspace_edges_le lo hi bins).
  - apply Qeq_bool_neq in He. split.
    + destruct (linspace_cons lo hi bins Hb) as [rest ->].
      apply searchsorted_right_first.
      setoid_replace (inject_Z (Z.of_nat 0) * ((hi - lo) / inject_Z (Z.of_nat bins)) + lo)%Q
        with lo by (simpl inject_Z; ring).
      apply Hall.
    + unfold linspace.
      etransitivity; [apply searchsorted_right_below_last|].
      * intros Hle. apply He. apply Qle_antisym; [apply Hall | exact Hle].
      * rewrite length_map, length_seq. lia.
Qed.

Lemma list_sum_concat (ll : list (list nat)) :
  list_sum (concat ll) = list_sum (map (fun l => list_sum l) ll).
Proof.
  induction ll as [|l ll IH]; simpl; [reflexivity|].
  rewrite list_sum_app, IH. reflexivity.
Qed.

Lemma list_sum_map_add {A : Type} (f g : A -> nat) (l : list A) :
  list_sum (map (fun x => f x + g x) l) = list_sum (map f l) + list_sum (map g l).
Proof.
  induction l as [|x l IH]; simpl; [reflexivity|]. rewrite IH. lia.
Qed.

Lemma list_sum_map_zero {A : Type} (l : list A) :
  list_sum (map (fun _ => 0) l) = 0.
Proof. induction l; simpl; auto. Qed.

Lemma list_sum_indicator (b s n : nat) :
  list_sum (map (fun j => if Nat.eqb b j then 1 else 0) (seq s n))
  = if (s <=? b) && (b <? s + n) then 1 else 0.
Proof.
  revert s. induction n as [|n IH]; intros s; simpl.
  - destruct (s <=? b) eqn:H1; simpl; [|reflexivity].
    destruct (Nat.ltb_spec b (s + 0)); [|reflexivity].
    apply Nat.leb_le in H1. lia.
  - rewrite IH.
    destruct (Nat.eqb_spec b s) as [Heq|Hne];
      destruct (Nat.leb_spec (S s) b), (Nat.leb_spec s b),
               (Nat.ltb_spec b (S s + n)), (Nat.ltb_spec b (s + S n));
      simpl; lia.
Qed.

(** The counts over the grid [1..bins] x [1..bins] add up to the number of
    pairs that lie in the grid. *)
Lemma grid_total bins (ps : list (nat * nat)) :
  (forall p, In p ps -> (1 <= fst p <= bins) /\ (1 <= snd p <= bins)) ->
  list_sum (map (fun i => list_sum (map (fun j => count_pair i j ps) (seq 1 bins)))
                (seq 1 bins))
  = length ps.
Proof.
  induction ps as [|p ps IH]; intros Hin.
  - unfold count_pair. simpl.
    rewrite (map_ext _ (fun _ => 0)); [apply list_sum_map_zero|].
    intros i. apply list_sum_map_zero.
  - assert (Hp := Hin p (or_introl eq_refl)).
    assert (Hps : forall q, In q ps -> (1 <= fst q <= bins) /\ (1 <= snd q <= bins)).
    { intros q Hq. apply Hin. now right. }
    specialize (IH Hps). simpl length. rewrite <- IH.
    rewrite (map_ext _ (fun i =>
               (if Nat.eqb (fst p) i then 1 else 0)
               + list_sum (map (fun j => count_pair i j ps) (seq 1 bins)))).
    + rewrite list_sum_map_add, list_sum_indicator.
      destruct (Nat.leb_spec 1 (fst p)), (Nat.ltb_spec (fst p) (1 + bins));
        simpl; lia.
    + intros i.
      rewrite (map_ext _ (fun j =>
                 (if Nat.eqb (fst p) i && Nat.eqb (snd p) j then 1 else 0)
                 + count_pair i j ps)).
      * rewrite list_sum_map_add. f_equal.
        destruct (Nat.eqb (fst p) i); simpl.
        -- rewrite list_sum_indicator.
           destruct (Nat.leb_spec 1 (snd p)), (Nat.ltb_spec (snd p) (1 + bins));
             simpl; lia.
        -- apply list_sum_map_zero.
      * intros j. unfold count_pair. simpl.
        destruct (Nat.eqb (fst p) i && Nat.eqb (snd p) j); reflexivity.
Qed.

Lemma histogram2d_total x y bins :
  0 < bins ->
  list_sum (concat (histogram2d x y bins)) = Nat.min (length x) (length y).
Proof.
  intros Hb. unfold histogram2d. rewrite list_sum_concat, map_map.
  rewrite grid_total.
  - rewrite length_combine, !length_map. reflexivity.
  - intros [i j] Hp. simpl. split.
    + apply in_combine_l in Hp. apply in_map_iff in Hp.
      destruct Hp as (v & <- & Hv). now apply bin_number_range.
    + apply in_combine_r in Hp. apply in_map_iff in Hp.
      destruct Hp as (v & <- & Hv). now apply bin_number_range.
Qed.

(** ** From bin counts to the entropy *)

Section EntropyFacts.
Local Open Scope R_scope.

Lemma Rsign_pos r : 0 < r -> Rsign r = Gt.
Proof.
  intros Hr. unfold Rsign. destruct (total_order_T r 0) as [[H|H]|H]; try lra.
  reflexivity.
Qed.

Lemma Rsign_zero : Rsign 0 = Eq.
Proof.
  unfold Rsign. destruct (total_order_T 0 0) as [[H|H]|H]; try lra. reflexivity.
Qed.

Lemma fold_npadd_Fin (l : list R) (a : R) :
  fold_left npadd (map Fin l) (Fin a) = Fin (a + fold_right Rplus 0 l).
Proof.
  revert a. induction l as [|x l IH]; intros a; simpl.
  - f_equal. lra.
  - rewrite IH. f_equal. lra.
Qed.

Lemma npsum_Fin (l : list R) : npsum (map Fin l) = Fin (fold_right Rplus 0 l).
Proof.
  unfold npsum. rewrite fold_npadd_Fin. f_equal. lra.
Qed.

Lemma sum_INR (cs : list nat) :
  fold_right Rplus 0 (map INR cs) = INR (list_sum cs).
Proof.
  induction cs as [|c cs IH]; simpl; [reflexivity|].
  rewrite IH, plus_INR. reflexivity.
Qed.

Lemma sum_scaled (k : R) (l : list R) :
  fold_right Rplus 0 (map (fun x => x / k) l) = fold_right Rplus 0 l / k.
Proof.
  induction l as [|x l IH]; simpl.
  - unfold Rdiv. now rewrite Rmult_0_l.
  - rewrite IH. unfold Rdiv. ring.
Qed.

Lemma pmf_as_map (cs : list nat) :
  pmf cs = map (fun x => x / INR (list_sum cs)) (map INR cs).
Proof. unfold pmf. now rewrite map_map. Qed.

Lemma pmf_total (cs : list nat) :
  (0 < list_sum cs)%nat -> fold_right Rplus 0 (pmf cs) = 1.
Proof.
  intros Hp. rewrite pmf_as_map, sum_scaled, sum_INR.
  apply Rdiv_diag. apply not_0_INR. lia.
Qed.

Lemma pmf_nonneg (cs : list nat) q :
  (0 < list_sum cs)%nat -> In q (pmf cs) -> 0 <= q.
Proof.
  intros Hp Hin. unfold pmf in Hin. apply in_map_iff in Hin.
  destruct Hin as (c & <- & _).
  apply Rle_mult_inv_pos; [apply pos_INR | apply lt_0_INR; lia].
Qed.

(** Dividing the count vector by its positive sum gives the pmf. *)
Lemma normalised_counts (cs : list nat) :
  (0 < list_sum cs)%nat ->
  let h_vec := map (fun c => Fin (INR c)) cs in
  map (fun c => npdiv c (npsum h_vec)) h_vec = map Fin (pmf cs).
Proof.
  intros Hp h_vec. subst h_vec.
  assert (Hs : npsum (map (fun c => Fin (INR c)) cs) = Fin (INR (list_sum cs))).
  { rewrite <- (map_map INR Fin cs), npsum_Fin, sum_INR. reflexivity. }
  rewrite Hs. unfold pmf. rewrite !map_map. apply map_ext. intros c. simpl.
  rewrite Rsign_pos; [reflexivity | apply lt_0_INR; lia].
Qed.

Lemma shannon_entropy_as_sum (p : list R) :
  shannon_entropy p = fold_right Rplus 0 (map shannon_term p).
Proof.
  unfold shannon_entropy. induction p as [|q p IH]; simpl; [reflexivity|].
  now rewrite IH.
Qed.

Lemma entr_of_probability q :
  0 <= q -> entr (npdiv (Fin q) (Fin 1)) = Fin (shannon_term q).
Proof.
  intros Hq. simpl. rewrite (Rsign_pos 1) by lra.
  unfold entr, shannon_term. rewrite Rdiv_1_r.
  destruct (Req_dec_T q 0) as [->|Hne].
  - now rewrite Rsign_zero.
  - rewrite Rsign_pos by lra. reflexivity.
Qed.

(** [scipy.stats.entropy] of a probability vector is its Shannon entropy. *)
Lemma entropy_of_pmf (p : list R) :
  fold_right Rplus 0 p = 1 ->
  (forall q, In q p -> 0 <= q) ->
  entropy (map Fin p) = Fin (shannon_entropy p).
Proof.
  intros Hsum Hnn. unfold entropy.
  rewrite npsum_Fin, Hsum, map_map.
  rewrite (map_ext_in _ (fun q => Fin (shannon_term q))).
  - rewrite <- (map_map shannon_term Fin p), npsum_Fin, shannon_entropy_as_sum.
    reflexivity.
  - intros q Hq. apply entr_of_probability. now apply Hnn.
Qed.

Lemma histogram_entropy_shannon (x y : list Q) :
  (0 < list_sum (concat (histogram2d x y 10)))%nat ->
  histogram_entropy x y
  = Fin (R_gas * shannon_entropy (pmf (concat (histogram2d x y 10)))).
Proof.
  intros Hp. unfold histogram_entropy. cbv zeta.
  rewrite (normalised_counts _ Hp).
  rewrite entropy_of_pmf.
  - reflexivity.
  - now apply pmf_total.
  - intros q. now apply pmf_nonneg.
Qed.

(** *** The uniform histogram *)




End EntropyFacts.

(** ** [get_entropy] *)

Lemma iloc_column_in_range df col :
  column_in_range df col ->
  exists xs, iloc_column df col = Returned xs /\ length xs = length (rows df).
Proof.
  intros [Hlo Hhi]. unfold iloc_column.
  assert (Hb : ((- Z.of_nat (width df) <=? col) && (col <? Z.of_nat (width df)))%Z = true).
  { apply andb_true_iff. split; [apply Z.leb_le | apply Z.ltb_lt]; assumption. }
  rewrite Hb. eexists. split; [reflexivity|]. apply length_map.
Qed.

Lemma drop_first_observations_cases e :
  (rows (dataframe e) = []
   /\ drop_first_observations e = (e, Raised (IndexError FirstRowLabel)))
  \/ (rows (dataframe e) <> []
      /\ drop_first_observations e = (fst (drop_first_observations e), Returned tt)
      /\ width (dataframe (fst (drop_first_observations e))) = width (dataframe e)).
Proof.
  unfold drop_first_observations.
  destruct (rows (dataframe e)) as [|r rest] eqn:Hr.
  - left. split; reflexivity.
  - right. split; [discriminate|]. split; reflexivity.
Qed.

Lemma get_entropy_run xcol ycol e e' xs ys :
  drop_first_observations e = (e', Returned tt) ->
  iloc_column (dataframe e') xcol = Returned xs ->
  iloc_column (dataframe e') ycol = Returned ys ->
  get_entropy xcol ycol e
  = (e', Returned (histogram_entropy (correct_signs xs) (correct_signs ys))).
Proof.
  intros Hd Hx Hy. unfold get_entropy, bind, get, lift, ret.
  rewrite Hd, Hy, Hx. reflexivity.
Qed.

Lemma get_entropy_on_empty xcol ycol e :
  rows (dataframe e) = [] ->
  get_entropy xcol ycol e = (e, Raised (IndexError FirstRowLabel)).
Proof.
  intros Hr. unfold get_entropy, bind.
  destruct (drop_first_observations_cases e) as [[_ ->] | [Hne _]];
    [reflexivity | contradiction].
Qed.

Lemma npsum_nan (l : list npfloat) : fold_left npadd l NaN = NaN.
Proof. induction l as [|x l IH]; simpl; [reflexivity | exact IH]. Qed.

(** The histogram of no samples is all zeros; divided by its sum it is all
    [nan], and so is everything computed from it. *)
Lemma histogram_entropy_empty : histogram_entropy [] [] = NaN.
Proof.
  unfold histogram_entropy.
  assert (Hh : concat (histogram2d [] [] 10) = repeat 0 100)
    by (vm_compute; reflexivity).
  rewrite Hh. cbv zeta.
  assert (Hs : npsum (map (fun c => Fin (INR c)) (repeat 0 100)) = Fin 0%R).
  { rewrite <- (map_map INR Fin), npsum_Fin, sum_INR. reflexivity. }
  rewrite Hs, map_map.
  assert (Hn : map (fun c => npdiv (Fin (INR c)) (Fin 0%R)) (repeat 0 100)
               = repeat NaN 100).
  { rewrite map_repeat. f_equal. simpl. rewrite Rsign_zero. reflexivity. }
  rewrite Hn. unfold entropy, npsum. simpl repeat. simpl fold_left at 2.
  simpl map. simpl fold_left. reflexivity.
Qed.

Lemma get_entropy_after_last_row xcol ycol e :
  rows (dataframe e) <> [] ->
  rows (dataframe (fst (drop_first_observations e))) = [] ->
  column_in_range (dataframe e) xcol ->
  column_in_range (dataframe e) ycol ->
  get_entropy xcol ycol e = (fst (drop_first_observations e), Returned NaN).
Proof.
  intros Hne Hempty Hx Hy.
  destruct (drop_first_observations_cases e) as [[Hr _] | (_ & Hd & Hw)];
    [contradiction|].
  set (e' := fst (drop_first_observations e)) in *.
  unfold column_in_range in Hx, Hy. rewrite <- Hw in Hx, Hy.
  destruct (iloc_column_in_range _ _ Hx) as (xs & Hxs & Hlx).
  destruct (iloc_column_in_range _ _ Hy) as (ys & Hys & Hly).
  rewrite (get_entropy_run xcol ycol e e' xs ys Hd Hxs Hys).
  rewrite Hempty in Hlx, Hly.
  destruct xs; [|discriminate]. destruct ys; [|discriminate].
  change (correct_signs (@nil Q)) with (@nil Q).
  now rewrite histogram_entropy_empty.
Qed.


(** ** [get_entropy] on binary64 tables *)












(** C6, as the code has it.  When the drop removes the last row and both
    columns are in range, [get_entropy] raises nothing: the all-zero
    histogram is divided by its zero sum and the call returns [nan].  The
    only failure on an empty table is the index error of the drop itself,
    when the table is already empty before the call. *)
Theorem get_entropy_empty_after_drop_is_nan :
  forall (e : Experiment) (xcol ycol : Z),
    (rows (dataframe e) <> [] ->
     rows (dataframe (fst (drop_first_observations e))) = [] ->
     column_in_range (dataframe e) xcol ->
     column_in_range (dataframe e) ycol ->
     get_entropy xcol ycol e = (fst (drop_first_observations e), Returned NaN))
    /\ (rows (dataframe e) = [] ->
        get_entropy xcol ycol e = (e, Raised (IndexError FirstRowLabel))).
Proof.
  intros e xcol ycol. split.
  - apply get_entropy_after_last_row.
  - apply get_entropy_on_empty.
Qed.

Lemma get_entropy_empty_after_drop_is_nan_witness :
  let e := experiment_of (angle_table [(3, 4)]%Q) in
  get_entropy 8 9 e = (fst (drop_first_observations e), Returned NaN)
  /\ get_entropy 8 9 (fst (drop_first_observations e))
     = (fst (drop_first_observations e), Raised (IndexError FirstRowLabel)).
Proof.
  intros e. split.
  - apply (proj1 (get_entropy_empty_after_drop_is_nan e 8%Z 9%Z)).
    + vm_compute. discriminate.
    + reflexivity.
    + vm_compute. split; [discriminate | reflexivity].
    + vm_compute. split; [discriminate | reflexivity].
  - apply (proj2 (get_entropy_empty_after_drop_is_nan
                    (fst (drop_first_observations e)) 8%Z 9%Z)).
    reflexivity.
Defined.

(** C6, as stated, fails: on a one-row table the drop leaves no row, and
    the call returns [nan] where an empty-dataset error is claimed. *)
Lemma get_entropy_single_row_returns_nan :
  let e := experiment_of (angle_table [(1, 2)]%Q) in
  rows (dataframe (fst (get_entropy 8 9 e))) = []
  /\ snd (get_entropy 8 9 e) = Returned NaN
  /\ forall err, snd (get_entropy 8 9 e) <> Raised err.
Proof.
  intros e.
  assert (H : get_entropy 8 9 e = (fst (drop_first_observations e), Returned NaN)).
  { apply get_entropy_after_last_row.
    - vm_compute. discriminate.
    - reflexivity.
    - vm_compute. split; [discriminate | reflexivity].
    - vm_compute. split; [discriminate | reflexivity]. }
  rewrite H. simpl. repeat split. intros err. discriminate.
Qed.

(** ** The traversal over mers *)

Lemma same_identity_refl w : same_identity w w.
Proof. repeat split. Qed.

Lemma same_identity_trans w1 w2 w3 :
  same_identity w1 w2 -> same_identity w2 w3 -> same_identity w1 w3.
Proof.
  unfold same_identity. intros (a1 & a2 & a3 & a4 & a5 & a6) (b1 & b2 & b3 & b4 & b5 & b6).
  repeat split; congruence.
Qed.

Lemma get_entropy_columns xcol ycol e :
  columns (fst (get_entropy xcol ycol e)) = columns e.
Proof.
  rewrite get_entropy_state. unfold drop_first_observations.
  destruct (rows (dataframe e)); reflexivity.
Qed.

Lemma get_entropy_raises xcol ycol e e' err :
  get_entropy xcol ycol e = (e', Raised err) -> is_index_error err.
Proof.
  unfold get_entropy, bind, get, lift, ret.
  destruct (drop_first_observations_cases e) as [[_ ->] | (_ & -> & _)].
  - intros [= _ <-]. eexists. reflexivity.
  - set (e1 := fst (drop_first_observations e)).
    unfold iloc_column.
    destruct ((- Z.of_nat (width (dataframe e1)) <=? ycol)
              && (ycol <? Z.of_nat (width (dataframe e1))))%Z.
    + destruct ((- Z.of_nat (width (dataframe e1)) <=? xcol)
                && (xcol <? Z.of_nat (width (dataframe e1))))%Z.
      * discriminate.
      * intros [= _ <-]. eexists. reflexivity.
    + intros [= _ <-]. eexists. reflexivity.
Qed.

Lemma each_experiment_spec {A : Type} (m : method Experiment A) exps :
  (forall e, columns (fst (m e)) = columns e) ->
  length (fst (each_experiment m exps)) = length exps
  /\ map columns (fst (each_experiment m exps)) = map columns exps
  /\ (forall l, snd (each_experiment m exps) = Returned l -> length l = length exps).
Proof.
  intros Hc. induction exps as [|e rest IH]; simpl.
  - repeat split. intros l [= <-]. reflexivity.
  - specialize (Hc e). destruct (m e) as [e' [a|err]]; simpl in Hc.
    + destruct (each_experiment m rest) as [rest' [l|err]]; simpl in *;
        destruct IH as (I1 & I2 & I3).
      * repeat split; [congruence | congruence |].
        intros l' [= <-]. simpl. now rewrite (I3 l).
      * repeat split; [congruence | congruence | discriminate].
    + simpl. repeat split; [congruence | discriminate].
Qed.

Lemma each_experiment_raises {A : Type} (m : method Experiment A) exps exps' err :
  (forall e e' err, m e = (e', Raised err) -> is_index_error err) ->
  each_experiment m exps = (exps', Raised err) -> is_index_error err.
Proof.
  intros Hm. revert exps'. induction exps as [|e rest IH]; intros exps'; simpl.
  - discriminate.
  - destruct (m e) as [e' [a|err']] eqn:He.
    + destruct (each_experiment m rest) as [rest' [l|err']].
      * discriminate.
      * intros [= _ <-]. now apply (IH rest').
    + intros [= _ <-]. now apply (Hm e e').
Qed.

Lemma entropies_for_spec xcol ycol w :
  same_identity w (fst (entropies_for xcol ycol w))
  /\ (forall l, snd (entropies_for xcol ycol w) = Returned l ->
                length l = length (experiments (self w)))
  /\ (forall err, snd (entropies_for xcol ycol w) = Raised err -> is_index_error err).
Proof.
  unfold entropies_for, over_experiments.
  pose proof (each_experiment_spec (get_entropy xcol ycol) (experiments (self w))
                (get_entropy_columns xcol ycol)) as (H1 & H2 & H3).
  pose proof (each_experiment_raises (get_entropy xcol ycol) (experiments (self w))) as H4.
  destruct (each_experiment (get_entropy xcol ycol) (experiments (self w)))
    as [exps out] eqn:He. simpl in *.
  split; [repeat split; assumption|]. split; [exact H3|].
  intros err ->. apply (H4 exps err); [|reflexivity].
  intros e e' err'. apply get_entropy_raises.
Qed.

(** Without a plot directory [hist_of_entropy] is the plain collection. *)
Lemma hist_of_entropy_None xcol ycol w :
  hist_of_entropy xcol ycol None w = entropies_for xcol ycol w.
Proof.
  unfold hist_of_entropy, bind, ret. simpl truthy. cbv iota.
  destruct (entropies_for xcol ycol w) as [w' [l|err]] eqn:He;
    unfold entropies_for in He; rewrite He; reflexivity.
Qed.

Lemma mer_entropies_spec xcol ycol mer w :
  mer_entropies xcol ycol mer w
  = entropies_for (xcol + magic_number (self w) * Z.of_nat mer)
                  (ycol + magic_number (self w) * Z.of_nat mer) w.
Proof.
  unfold mer_entropies, bind, get. apply hist_of_entropy_None.
Qed.

(** The state and the outcome of the shared traversal. *)
Lemma per_mer_traversal_spec offset xcol ycol mers w :
  let run := for_list (fun mer =>
               entropies_for (xcol + offset * Z.of_nat mer) (ycol + offset * Z.of_nat mer))
               mers w in
  same_identity w (fst run)
  /\ (forall ents, snd run = Returned ents ->
        length ents = length mers
        /\ Forall (fun l => length l = length (experiments (self w))) ents)
  /\ (forall err, snd run = Raised err -> is_index_error err).
Proof.
  revert w. induction mers as [|mer rest IH]; intros w; simpl.
  - split; [apply same_identity_refl|]. split; [|discriminate].
    intros ents [= <-]. split; [reflexivity | constructor].
  - unfold bind.
    destruct (entropies_for_spec (xcol + offset * Z.of_nat mer)
                (ycol + offset * Z.of_nat mer) w) as (S1 & L1 & E1).
    destruct (entropies_for (xcol + offset * Z.of_nat mer)
                (ycol + offset * Z.of_nat mer) w) as [w1 [l|err]]; simpl in *.
    + destruct (IH w1) as (S2 & L2 & E2).
      destruct (for_list _ rest w1) as [w2 [ents|err]]; simpl in *.
      * split; [eapply same_identity_trans; eassumption|]. split; [|discriminate].
        intros ents' [= <-]. destruct (L2 ents eq_refl) as [La Lb].
        split; [simpl; now rewrite La|]. constructor.
        -- now apply L1.
        -- destruct S1 as (_ & _ & _ & _ & S1 & _). rewrite <- S1. exact Lb.
      * split; [eapply same_identity_trans; eassumption|]. split; [discriminate|].
        intros err' [= <-]. now apply E2.
    + split; [exact S1|]. split; [discriminate|].
      intros err' [= <-]. now apply E1.
Qed.

(** ** Percentile mode *)

Lemma for_list_cons {S A B : Type} (f : A -> method S B) x rest s :
  for_list f (x :: rest) s
  = match f x s with
    | (s1, Returned b) =>
        match for_list f rest s1 with
        | (s2, Returned bs) => (s2, Returned (b :: bs))
        | (s2, Raised err) => (s2, Raised err)
        end
    | (s1, Raised err) => (s1, Raised err)
    end.
Proof.
  cbn [for_list]. unfold bind, ret. destruct (f x s) as [s1 [b|err]]; [|reflexivity].
  destruct (for_list f rest s1) as [s2 [bs|err]]; reflexivity.
Qed.

Lemma np_percentile_nonempty a q :
  a <> [] -> np_percentile a q = Returned (percentile_linear a q).
Proof.
  destruct a; [contradiction | reflexivity].
Qed.

(** On a set that owns an experiment every per-mer list is non-empty, and
    the loop is the shared traversal followed by the three reductions. *)
Lemma percentile_loop_spec xcol ycol mers :
  forall acc w,
    experiments (self w) <> [] ->
    percentile_loop xcol ycol mers acc w
    = match for_list (fun mer =>
                entropies_for (xcol + magic_number (self w) * Z.of_nat mer)
                              (ycol + magic_number (self w) * Z.of_nat mer)) mers w with
      | (w', Returned ents) =>
          (w', Returned
                 {| median_entropy := median_entropy acc ++ map np_median ents;
                    entropy_perc5 :=
                      entropy_perc5 acc ++ map (fun l => percentile_linear l 5) ents;
                    entropy_perc95 :=
                      entropy_perc95 acc ++ map (fun l => percentile_linear l 95) ents |})
      | (w', Raised err) => (w', Raised err)
      end.
Proof.
  induction mers as [|mer rest IH]; intros acc w Hne.
  - simpl. unfold ret. rewrite !app_nil_r. destruct acc; reflexivity.
  - rewrite for_list_cons. cbn [percentile_loop].
    unfold bind at 1. rewrite mer_entropies_spec.
    destruct (entropies_for_spec (xcol + magic_number (self w) * Z.of_nat mer)
                (ycol + magic_number (self w) * Z.of_nat mer) w)
      as ((_ & Hm & _ & _ & Hlen & _) & Hl & _).
    destruct (entropies_for (xcol + magic_number (self w) * Z.of_nat mer)
                (ycol + magic_number (self w) * Z.of_nat mer) w) as [w1 [l|err]];
      simpl in Hm, Hlen, Hl; [|reflexivity].
    assert (Hl' : l <> []).
    { intros ->. specialize (Hl [] eq_refl). simpl in Hl.
      destruct (experiments (self w)); [contradiction | discriminate]. }
    assert (Hne1 : experiments (self w1) <> []).
    { intros H0. rewrite H0 in Hlen. simpl in Hlen.
      destruct (experiments (self w)); [contradiction | discriminate]. }
    unfold bind at 1, lift. rewrite (np_percentile_nonempty l 5 Hl').
    unfold bind at 1. rewrite (np_percentile_nonempty l 95 Hl').
    rewrite (IH _ w1 Hne1), Hm.
    destruct (for_list _ rest w1) as [w2 [ents|err]]; [|reflexivity].
    simpl. rewrite <- !app_assoc. reflexivity.
Qed.

(** On a set that owns no experiment the first mer already fails: its
    entropy list is empty and [np.percentile] raises. *)
Lemma percentile_loop_empty_set xcol ycol mer rest acc w :
  experiments (self w) = [] ->
  exists w',
    percentile_loop xcol ycol (mer :: rest) acc w
    = (w', Raised (IndexError EmptyPercentile))
    /\ emitted w' = emitted w /\ experiments (self w') = [].
Proof.
  intros H0. simpl. unfold bind at 1. rewrite mer_entropies_spec.
  unfold entropies_for, over_experiments. rewrite H0. simpl.
  eexists. split; [reflexivity|]. split; reflexivity.
Qed.

Lemma percentile_bands_spec xcol ycol no_mers w :
  experiments (self w) <> [] ->
  percentile_bands xcol ycol no_mers w
  = match per_mer_entropies (magic_number (self w)) xcol ycol no_mers w with
    | (w', Returned ents) => (w', Returned (reduce_bands ents))
    | (w', Raised err) => (w', Raised err)
    end.
Proof.
  intros Hne. unfold percentile_bands, per_mer_entropies.
  rewrite percentile_loop_spec by exact Hne.
  reflexivity.
Qed.

Lemma per_mer_entropies_spec offset xcol ycol no_mers w w1 ents :
  per_mer_entropies offset xcol ycol no_mers w = (w1, Returned ents) ->
  same_identity w w1
  /\ length ents = Z.to_nat no_mers
  /\ Forall (fun l => length l = length (experiments (self w))) ents.
Proof.
  intros Hrun. unfold per_mer_entropies in Hrun.
  pose proof (per_mer_traversal_spec offset xcol ycol (range no_mers) w) as Hs.
  cbv zeta in Hs. rewrite Hrun in Hs. simpl in Hs.
  destruct Hs as (S1 & L1 & _). destruct (L1 ents eq_refl) as [La Lb].
  split; [exact S1|]. split; [|exact Lb].
  rewrite La. unfold range. apply length_seq.
Qed.

Lemma described_set_nonempty w w1 col d :
  same_identity w w1 ->
  snd (column_description col w1) = Returned d ->
  experiments (self w) <> [].
Proof.
  intros (_ & _ & _ & _ & Hlen & _) Hd H0. rewrite H0 in Hlen.
  unfold column_description in Hd.
  destruct (experiments (self w1)); [discriminate Hd | discriminate Hlen].
Qed.

Lemma percentile_mode_run w xcol ycol plotdir no_mers w1 ents xdesc ydesc :
  per_mer_entropies (magic_number (self w)) xcol ycol no_mers w = (w1, Returned ents) ->
  column_description xcol w1 = (w1, Returned xdesc) ->
  column_description ycol w1 = (w1, Returned ydesc) ->
  entropy_distribution_percentiles xcol ycol plotdir no_mers w
  = ({| self := self w1;
        emitted := emitted w
                   ++ percentile_plot (self w1) plotdir no_mers
                                      (reduce_bands ents) xdesc ydesc |},
     Returned (map np_median ents)).
Proof.
  intros Hrun Hx Hy.
  destruct (per_mer_entropies_spec _ _ _ _ _ _ _ Hrun) as (Hsame & _ & _).
  assert (Hne : experiments (self w) <> []).
  { apply (described_set_nonempty w w1 xcol xdesc Hsame). now rewrite Hx. }
  destruct Hsame as (He & _).
  unfold entropy_distribution_percentiles, bind at 1.
  rewrite (percentile_bands_spec _ _ _ _ Hne), Hrun.
  unfold bind at 1. rewrite Hx. unfold bind at 1. rewrite Hy.
  unfold bind, get, emit, ret. simpl. rewrite He.
  rewrite <- !app_assoc. reflexivity.
Qed.

(** C7, as the code has it.  When the shared traversal yields the per-mer
    entropy lists [ents] (one list per mer 0..N-1, at the columns shifted by
    mer * mer_offset) and both column descriptions exist, percentile mode
    returns the sequence of the N medians and only that; the sequences of
    the linear-interpolation 5th and 95th percentiles are computed from the
    same lists and handed to pyplot, not returned. *)
Theorem percentile_mode_returns_medians :
  forall (w : World) (xcol ycol : Z) (plotdir : string) (no_mers : Z)
         (w1 : World) (ents : list (list npfloat)) (xdesc ydesc : string),
    per_mer_entropies (magic_number (self w)) xcol ycol no_mers w = (w1, Returned ents) ->
    column_description xcol w1 = (w1, Returned xdesc) ->
    column_description ycol w1 = (w1, Returned ydesc) ->
    entropy_distribution_percentiles xcol ycol plotdir no_mers w
    = ({| self := self w1;
          emitted := emitted w
                     ++ percentile_plot (self w1) plotdir no_mers
                                        (reduce_bands ents) xdesc ydesc |},
       Returned (map np_median ents))
    /\ length (map np_median ents) = Z.to_nat no_mers
    /\ percentile_bands xcol ycol no_mers w = (w1, Returned (reduce_bands ents))
    /\ In (PltPlot (first_mers no_mers) (map (fun l => percentile_linear l 5) ents)
                   (Some ":"%string) (Named "red") (Some "5 and 95 perc."%string))
          (percentile_plot (self w1) plotdir no_mers (reduce_bands ents) xdesc ydesc)
    /\ In (PltPlot (first_mers no_mers) (map (fun l => percentile_linear l 95) ents)
                   (Some ":"%string) (Named "red") None)
          (percentile_plot (self w1) plotdir no_mers (reduce_bands ents) xdesc ydesc).
Proof.
  intros w xcol ycol plotdir no_mers w1 ents xdesc ydesc Hrun Hx Hy.
  destruct (per_mer_entropies_spec _ _ _ _ _ _ _ Hrun) as (Hsame & Hlen & _).
  assert (Hne : experiments (self w) <> []).
  { apply (described_set_nonempty w w1 xcol xdesc Hsame). now rewrite Hx. }
  split; [now apply percentile_mode_run|].
  split; [now rewrite length_map|].
  split; [rewrite (percentile_bands_spec _ _ _ _ Hne), Hrun; reflexivity|].
  split.
  - right. left. reflexivity.
  - right. right. left. reflexivity.
Qed.

(** *** Two concrete realisations *)

Section TwoRuns.
Local Open Scope R_scope.

Lemma shannon_term_zero : shannon_term 0 = 0.
Proof. unfold shannon_term. destruct (Req_dec_T 0 0); [reflexivity | lra]. Qed.

(** Empty bins can be left out of the sum. *)
Lemma shannon_entropy_nonzero_bins (N : R) (cs : list nat) :
  shannon_entropy (map (fun c => INR c / N) cs)
  = fold_right Rplus 0
      (map (fun c => shannon_term (INR c / N))
           (filter (fun c => negb (Nat.eqb c 0)) cs)).
Proof.
  unfold shannon_entropy. induction cs as [|c cs IH]; simpl; [reflexivity|].
  rewrite IH. destruct c as [|c]; simpl negb; cbv iota.
  - simpl INR. rewrite Rdiv_0_l, shannon_term_zero. lra.
  - reflexivity.
Qed.

Lemma ln_2_pos : 0 < ln 2.
Proof. rewrite <- ln_1. apply ln_increasing; lra. Qed.

Lemma entropy_one_sample : histogram_entropy [1%Q] [1%Q] = Fin 0.
Proof.
  assert (Hf : filter (fun c => negb (Nat.eqb c 0)) (concat (histogram2d [1%Q] [1%Q] 10))
               = [1%nat]) by (vm_compute; reflexivity).
  assert (Ht : list_sum (concat (histogram2d [1%Q] [1%Q] 10)) = 1%nat)
    by (vm_compute; reflexivity).
  rewrite histogram_entropy_shannon by (rewrite Ht; lia).
  unfold pmf. rewrite shannon_entropy_nonzero_bins, Hf, Ht. simpl.
  f_equal. unfold shannon_term.
  destruct (Req_dec_T (1 / 1) 0) as [H|H]; [lra|].
  rewrite Rdiv_1_r, ln_1. lra.
Qed.

Lemma entropy_two_samples :
  histogram_entropy [1; 2]%Q [1; 2]%Q = Fin (R_gas * ln 2).
Proof.
  assert (Hf : filter (fun c => negb (Nat.eqb c 0))
                 (concat (histogram2d [1; 2]%Q [1; 2]%Q 10))
               = [1%nat; 1%nat]) by (vm_compute; reflexivity).
  assert (Ht : list_sum (concat (histogram2d [1; 2]%Q [1; 2]%Q 10)) = 2%nat)
    by (vm_compute; reflexivity).
  rewrite histogram_entropy_shannon by (rewrite Ht; lia).
  unfold pmf. rewrite shannon_entropy_nonzero_bins, Hf, Ht. simpl.
  f_equal. unfold shannon_term.
  replace (1 / (1 + 1)) with (/ 2) by lra.
  destruct (Req_dec_T (/ 2) 0) as [H|H]; [lra|].
  rewrite ln_Rinv by lra. lra.
Qed.

Lemma two_run_traversal :
  per_mer_entropies 4 8 9 1 two_run_world
  = (two_run_after, Returned [[Fin 0; Fin (R_gas * ln 2)]]).
Proof.
  rewrite <- entropy_one_sample, <- entropy_two_samples.
  lazy -[histogram_entropy]. reflexivity.
Qed.

Lemma two_run_descriptions :
  column_description 8 two_run_after = (two_run_after, Returned "ϕ₁₄ mers 1, 2"%string)
  /\ column_description 9 two_run_after = (two_run_after, Returned "ψ₁₄ mers 1, 2"%string).
Proof. split; reflexivity. Qed.

Lemma np_sort_two a b : a <= b -> np_sort [Fin a; Fin b] = [Fin a; Fin b].
Proof.
  intros H. unfold np_sort. simpl.
  destruct (Rle_dec a b); [reflexivity | contradiction].
Qed.

Lemma np_median_two a b : a <= b -> np_median [Fin a; Fin b] = Fin ((a + b) / 2).
Proof.
  intros H. unfold np_median.
  change (length [Fin a; Fin b]) with 2%nat.
  change (existsb is_nan [Fin a; Fin b]) with false. cbv iota.
  rewrite (np_sort_two a b H).
  change (Nat.odd 2) with false. cbv iota.
  change (2 / 2 - 1)%nat with 0%nat. change (2 / 2)%nat with 1%nat.
  simpl nth. simpl npadd. unfold npdiv. rewrite (Rsign_pos 2) by lra. reflexivity.
Qed.

Lemma percentile_linear_two_5 a b :
  a <= b -> percentile_linear [Fin a; Fin b] 5 = Fin (a + (b - a) * (5 / 100)).
Proof.
  intros H. unfold percentile_linear.
  change (length [Fin a; Fin b]) with 2%nat.
  change (existsb is_nan [Fin a; Fin b]) with false. cbv iota.
  rewrite (np_sort_two a b H). cbv zeta.
  change ((2 - 1) * 5)%nat with 5%nat.
  change (5 / 100)%nat with 0%nat. change (5 mod 100)%nat with 5%nat.
  change (50 <=? 5)%nat with false. cbv iota.
  change (Nat.min (0 + 1) (2 - 1)) with 1%nat.
  simpl nth. simpl npsub. simpl npmul. simpl npadd. f_equal. lra.
Qed.

Lemma percentile_linear_two_95 a b :
  a <= b -> percentile_linear [Fin a; Fin b] 95 = Fin (b - (b - a) * (5 / 100)).
Proof.
  intros H. unfold percentile_linear.
  change (length [Fin a; Fin b]) with 2%nat.
  change (existsb is_nan [Fin a; Fin b]) with false. cbv iota.
  rewrite (np_sort_two a b H). cbv zeta.
  change ((2 - 1) * 95)%nat with 95%nat.
  change (95 / 100)%nat with 0%nat. change (95 mod 100)%nat with 95%nat.
  change (50 <=? 95)%nat with true. cbv iota.
  change (Nat.min (0 + 1) (2 - 1)) with 1%nat.
  simpl nth. unfold npsub. simpl npneg. simpl npadd. simpl npmul. simpl npneg.
  simpl npadd. f_equal.
  replace (INR 95) with 95 by (rewrite INR_IZR_INZ; reflexivity). lra.
Qed.

Lemma two_run_bands :
  reduce_bands [[Fin 0; Fin (R_gas * ln 2)]]
  = {| median_entropy := [Fin (R_gas * ln 2 / 2)];
       entropy_perc5 := [Fin (R_gas * ln 2 * 5 / 100)];
       entropy_perc95 := [Fin (R_gas * ln 2 * 95 / 100)] |}.
Proof.
  pose proof ln_2_pos as Hln.
  assert (Hc : 0 <= R_gas * ln 2).
  { unfold R_gas. apply Rmult_le_pos; lra. }
  unfold reduce_bands. simpl map.
  rewrite (np_median_two _ _ Hc), (percentile_linear_two_5 _ _ Hc),
    (percentile_linear_two_95 _ _ Hc).
  f_equal; f_equal; f_equal; lra.
Qed.

End TwoRuns.

Lemma percentile_mode_returns_medians_witness :
  entropy_distribution_percentiles 8 9 "plots" 1 two_run_world
  = ({| self := self two_run_after;
        emitted := percentile_plot (self two_run_after) "plots" 1
                     (reduce_bands [[Fin 0%R; Fin (R_gas * ln 2)%R]])
                     "ϕ₁₄ mers 1, 2" "ψ₁₄ mers 1, 2" |},
     Returned (map np_median [[Fin 0%R; Fin (R_gas * ln 2)%R]])).
Proof.
  apply (percentile_mode_returns_medians two_run_world 8%Z 9%Z "plots"%string 1%Z
           two_run_after [[Fin 0%R; Fin (R_gas * ln 2)%R]]
           "ϕ₁₄ mers 1, 2"%string "ψ₁₄ mers 1, 2"%string).
  - exact two_run_traversal.
  - reflexivity.
  - reflexivity.
Defined.

(** C7, as stated, fails: with two realisations of entropies 0 and
    c = 8.314 ln 2 at mer 0, the loop computes median c/2 and percentiles
    c*5/100 and c*95/100, and percentile mode returns the one-element list
    of the median, in which neither percentile occurs. *)
Lemma percentile_mode_returns_only_medians :
  snd (entropy_distribution_percentiles 8 9 "plots" 1 two_run_world)
  = Returned [Fin (R_gas * ln 2 / 2)%R]
  /\ snd (percentile_bands 8 9 1 two_run_world)
     = Returned {| median_entropy := [Fin (R_gas * ln 2 / 2)%R];
                   entropy_perc5 := [Fin (R_gas * ln 2 * 5 / 100)%R];
                   entropy_perc95 := [Fin (R_gas * ln 2 * 95 / 100)%R] |}
  /\ ~ In (Fin (R_gas * ln 2 * 5 / 100)%R) [Fin (R_gas * ln 2 / 2)%R]
  /\ ~ In (Fin (R_gas * ln 2 * 95 / 100)%R) [Fin (R_gas * ln 2 / 2)%R].
Proof.
  pose proof ln_2_pos as Hln.
  destruct two_run_descriptions as [Hx Hy].
  split; [|split; [|split]].
  - rewrite (percentile_mode_run two_run_world 8 9 "plots" 1 two_run_after
               [[Fin 0%R; Fin (R_gas * ln 2)%R]] _ _ two_run_traversal Hx Hy).
    unfold snd. f_equal. exact (f_equal median_entropy two_run_bands).
  - rewrite percentile_bands_spec by discriminate.
    change (magic_number (self two_run_world)) with 4%Z.
    rewrite two_run_traversal. unfold snd. f_equal. exact two_run_bands.
  - intros [H | []]. injection H as H. unfold R_gas in H. lra.
  - intros [H | []]. injection H as H. unfold R_gas in H. lra.
Qed.

(** ** Realisation mode *)

Lemma list_set_length {A : Type} (g : list A) k v : length (list_set g k v) = length g.
Proof.
  revert k. induction g as [|x g IH]; intros [|k]; simpl; auto.
Qed.

Lemma list_set_firstn {A : Type} (g : list A) k v :
  k < length g -> firstn (S k) (list_set g k v) = firstn k g ++ [v].
Proof.
  revert k. induction g as [|x g IH]; intros k Hk; simpl in Hk; [lia|].
  destruct k as [|k].
  - reflexivity.
  - change (list_set (x :: g) (S k) v) with (x :: list_set g k v).
    rewrite !firstn_cons, IH by lia. reflexivity.
Qed.

Lemma list_set_skipn {A : Type} (g : list A) k v :
  skipn (S k) (list_set g k v) = skipn (S k) g.
Proof.
  revert k. induction g as [|x g IH]; intros [|k]; simpl; auto.
  apply IH.
Qed.

(** The loop that fills the grid replaces the rows k .. k+m-1 by the lists
    of the traversal. *)
Lemma realisation_loop_spec xcol ycol m :
  forall k grid w,
    k + m <= length grid ->
    realisation_loop xcol ycol (seq k m) grid w
    = match for_list (fun mer =>
                entropies_for (xcol + magic_number (self w) * Z.of_nat mer)
                              (ycol + magic_number (self w) * Z.of_nat mer))
                     (seq k m) w with
      | (w', Returned ents) =>
          (w', Returned (firstn k grid ++ ents ++ skipn (k + m) grid))
      | (w', Raised err) => (w', Raised err)
      end.
Proof.
  induction m as [|m IH]; intros k grid w Hk.
  - simpl. unfold ret. rewrite Nat.add_0_r, firstn_skipn. reflexivity.
  - simpl. unfold bind at 1 2. rewrite mer_entropies_spec.
    destruct (entropies_for_spec (xcol + magic_number (self w) * Z.of_nat k)
                (ycol + magic_number (self w) * Z.of_nat k) w) as ((_ & Hm & _) & _ & _).
    destruct (entropies_for (xcol + magic_number (self w) * Z.of_nat k)
                (ycol + magic_number (self w) * Z.of_nat k) w) as [w1 [l|err]];
      simpl in Hm; [|reflexivity].
    rewrite IH by (rewrite list_set_length; lia). rewrite Hm.
    unfold bind, ret.
    destruct (for_list _ (seq (S k) m) w1) as [w2 [ents|err]]; [|reflexivity].
    rewrite list_set_firstn by lia.
    replace (S k + m) with (m + S k) by lia.
    rewrite <- skipn_skipn, list_set_skipn, skipn_skipn.
    replace (m + S k) with (k + S m) by lia.
    rewrite <- app_assoc. reflexivity.
Qed.

Lemma over_experiments_emitted {A : Type} (m : method Experiment A) w eff :
  over_experiments m (with_emitted w eff)
  = (with_emitted (fst (over_experiments m w)) eff, snd (over_experiments m w)).
Proof.
  unfold over_experiments, with_emitted. simpl.
  destruct (each_experiment m (experiments (self w))); reflexivity.
Qed.

(** The traversal does not look at what has been emitted. *)
Lemma per_mer_entropies_emitted offset xcol ycol no_mers w eff :
  per_mer_entropies offset xcol ycol no_mers (with_emitted w eff)
  = (with_emitted (fst (per_mer_entropies offset xcol ycol no_mers w)) eff,
     snd (per_mer_entropies offset xcol ycol no_mers w)).
Proof.
  unfold per_mer_entropies. generalize (range no_mers) as mers.
  intros mers. revert w. induction mers as [|mer rest IH]; intros w; simpl.
  - reflexivity.
  - unfold bind.
    replace (entropies_for (xcol + offset * Z.of_nat mer) (ycol + offset * Z.of_nat mer)
               (with_emitted w eff))
      with (with_emitted (fst (entropies_for (xcol + offset * Z.of_nat mer)
                                 (ycol + offset * Z.of_nat mer) w)) eff,
            snd (entropies_for (xcol + offset * Z.of_nat mer)
                   (ycol + offset * Z.of_nat mer) w))
      by (symmetry; apply over_experiments_emitted).
    destruct (entropies_for (xcol + offset * Z.of_nat mer)
                (ycol + offset * Z.of_nat mer) w) as [w1 [l|err]]; simpl;
      [|reflexivity].
    rewrite IH.
    destruct (for_list _ rest w1) as [w2 [ents|err]]; reflexivity.
Qed.

Lemma column_description_spec col w :
  column_description col w = (w, snd (column_description col w))
  /\ (forall eff, snd (column_description col (with_emitted w eff))
                  = snd (column_description col w))
  /\ (forall err, snd (column_description col w) = Raised err -> is_index_error err).
Proof.
  unfold column_description, with_emitted. simpl.
  destruct (experiments (self w)) as [|e rest].
  - repeat split. intros err [= <-]. eexists. reflexivity.
  - destruct (list_item (columns e) col).
    + repeat split. discriminate.
    + repeat split. intros err [= <-]. eexists. reflexivity.
Qed.

Lemma last_first_mer k :
  0 < k -> last (map Some (seq 1 k)) None = Some k.
Proof.
  intros Hk. destruct k as [|n]; [lia|].
  rewrite seq_S, map_app. simpl map. apply last_last.
Qed.










(* ================================================================== *)
(** * Further properties of the module *)

(** ** [correct_signs]: what the flips can and cannot do *)

Lemma Qopp_opp (x : Q) : Qopp (Qopp x) = x.
Proof. destruct x as [n d]. unfold Qopp. simpl. now rewrite Z.opp_involutive. Qed.

Lemma nth_negate_from_sign (k j : nat) (a : list Q) :
  nth j (negate_from k a) 0%Q = nth j a 0%Q
  \/ nth j (negate_from k a) 0%Q = Qopp (nth j a 0%Q).
Proof.
  revert j a. induction k as [|k IH]; intros j a.
  - right. unfold negate_from. simpl.
    change 0%Q with (Qopp 0%Q) at 1. apply map_nth.
  - destruct a as [|x a]; [left; destruct j; reflexivity|].
    destruct j as [|j]; [left; reflexivity|]. apply (IH j a).
Qed.

Lemma nth_fold_scan_sign (thres : Q) (idx : list nat) (j : nat) :
  forall a : list Q,
    nth j (fold_left (scan_step thres) idx a) 0%Q = nth j a 0%Q
    \/ nth j (fold_left (scan_step thres) idx a) 0%Q = Qopp (nth j a 0%Q).
Proof.
  induction idx as [|i idx IH]; intros a; simpl; [now left|].
  assert (Hstep : nth j (scan_step thres a i) 0%Q = nth j a 0%Q
                  \/ nth j (scan_step thres a i) 0%Q = Qopp (nth j a 0%Q)).
  { unfold scan_step. destruct (flip_condition thres a i);
      [apply nth_negate_from_sign | now left]. }
  destruct (IH (scan_step thres a i)) as [H1|H1], Hstep as [H2|H2];
    rewrite H1, H2; auto.
  left. apply Qopp_opp.
Qed.

(** X1. Sign correction only ever changes signs: every element of the
    result is the input element at the same position or its negation, so
    magnitudes are kept. *)
Theorem correct_signs_only_changes_signs (series : list Q) (i : nat) :
  (nth i (correct_signs series) 0%Q = nth i series 0%Q
   \/ nth i (correct_signs series) 0%Q = Qopp (nth i series 0%Q))
  /\ Qabs (nth i (correct_signs series) 0%Q) = Qabs (nth i series 0%Q).
Proof.
  split.
  - apply nth_fold_scan_sign.
  - apply nth_fold_scan_abs.
Qed.

Lemma Qabs_opp_plus (x y : Q) : Qabs (Qopp x + Qopp y) = Qabs (x + y).
Proof.
  destruct x as [a b], y as [c d]. unfold Qabs, Qplus, Qopp. simpl.
  f_equal. rewrite <- Z.abs_opp. f_equal. ring.
Qed.

Lemma Qabs_opp_eq (x : Q) : Qabs (Qopp x) = Qabs x.
Proof. destruct x as [a b]. unfold Qabs, Qopp. simpl. now rewrite Z.abs_opp. Qed.

Lemma flip_test_opp (thres x y : Q) :
  flip_test thres (Qopp x) (Qopp y) = flip_test thres x y.
Proof.
  change (Qltb (Qabs (Qopp x + Qopp y)) (thres * Qabs (Qopp y))
          = Qltb (Qabs (x + y)) (thres * Qabs y)).
  now rewrite Qabs_opp_plus, Qabs_opp_eq.
Qed.

Lemma correct_signs_opp_len (n : nat) :
  forall s : list Q,
    length s <= n ->
    correct_signs (map Qopp s) = map Qopp (correct_signs s).
Proof.
  induction n as [|n IH]; intros s Hn.
  - destruct s; [reflexivity | simpl in Hn; lia].
  - destruct s as [|x [|y t]]; try reflexivity.
    unfold correct_signs.
    change (map Qopp (x :: y :: t)) with (Qopp x :: Qopp y :: map Qopp t).
    rewrite !correct_signs_thres_cons2, flip_test_opp.
    destruct (flip_test nhalf x y); cbn [map]; f_equal.
    + refine (IH (map nneg (y :: t)) _). rewrite length_map. simpl in *. lia.
    + refine (IH (y :: t) _). simpl in *. lia.
Qed.

(** X3. Sign correction commutes with negating the whole series. *)
Theorem correct_signs_commutes_with_negation (series : list Q) :
  correct_signs (map Qopp series) = map Qopp (correct_signs series).
Proof. apply (correct_signs_opp_len (length series)). apply Nat.le_refl. Qed.

(** ** [get_entropy]: failures and bounds *)

Lemma iloc_column_out_of_range df col :
  ~ column_in_range df col ->
  iloc_column df col = Raised (IndexError (ColumnSelect col)).
Proof.
  intros Hout. unfold iloc_column.
  destruct ((- Z.of_nat (width df) <=? col) && (col <? Z.of_nat (width df)))%Z eqn:Hb;
    [|reflexivity].
  exfalso. apply Hout. apply andb_true_iff in Hb. destruct Hb as [H1 H2].
  split; [now apply Z.leb_le | now apply Z.ltb_lt].
Qed.

Lemma experiment_of_labels (t : Table) : NoDup (labels (experiment_of t)).
Proof.
  unfold labels, experiment_of. simpl.
  rewrite map_fst_combine by (now rewrite length_map, length_seq).
  apply range_labels_NoDup.
Qed.

(** X4. A call with a column out of range raises an index error that names
    the first offending column, [ycol] being looked at before [xcol], and
    the first row has been removed all the same: the experiment is left as
    the drop leaves it, one row shorter when its labels are distinct. *)
Theorem get_entropy_raises_after_dropping :
  forall (e : Experiment) (xcol ycol : Z),
    rows (dataframe e) <> [] ->
    let e' := fst (drop_first_observations e) in
    (~ column_in_range (dataframe e) ycol ->
     get_entropy xcol ycol e = (e', Raised (IndexError (ColumnSelect ycol))))
    /\ (column_in_range (dataframe e) ycol ->
        ~ column_in_range (dataframe e) xcol ->
        get_entropy xcol ycol e = (e', Raised (IndexError (ColumnSelect xcol))))
    /\ (NoDup (labels e) -> rows (dataframe e') = tl (rows (dataframe e))).
Proof.
  intros e xcol ycol Hne e'.
  destruct (drop_first_observations_cases e) as [[Hr _] | (_ & Hd & Hw)];
    [contradiction|].
  fold e' in Hd, Hw. unfold column_in_range. rewrite <- Hw.
  split; [|split].
  - intros Hy. unfold get_entropy, bind, get, lift. rewrite Hd.
    now rewrite (iloc_column_out_of_range _ _ Hy).
  - intros Hy Hx. unfold get_entropy, bind, get, lift. rewrite Hd.
    destruct (iloc_column_in_range _ _ Hy) as (ys & -> & _).
    now rewrite (iloc_column_out_of_range _ _ Hx).
  - intros Hn. destruct (rows (dataframe e)) as [|r rest] eqn:Hr; [contradiction|].
    subst e'. rewrite (drop_first_rows e r rest Hr Hn). reflexivity.
Qed.

Lemma get_entropy_raises_after_dropping_witness :
  let e := experiment_of (angle_table [(1, 2); (3, 4)]%Q) in
  get_entropy 8 100 e
  = (fst (drop_first_observations e), Raised (IndexError (ColumnSelect 100)))
  /\ get_entropy (-101) 9 e
     = (fst (drop_first_observations e), Raised (IndexError (ColumnSelect (-101))))
  /\ rows (dataframe (fst (drop_first_observations e))) = tl (rows (dataframe e)).
Proof.
  intros e.
  assert (Hne : rows (dataframe e) <> []) by (vm_compute; discriminate).
  split; [|split].
  - apply (proj1 (get_entropy_raises_after_dropping e 8%Z 100%Z Hne)).
    vm_compute. intros [_ H]. discriminate.
  - apply (proj1 (proj2 (get_entropy_raises_after_dropping e (-101)%Z 9%Z Hne))).
    + vm_compute. split; [discriminate | reflexivity].
    + vm_compute. intros [H _]. now apply H.
  - apply (proj2 (proj2 (get_entropy_raises_after_dropping e 8%Z 9%Z Hne))).
    apply experiment_of_labels.
Defined.

Section EntropyBounds.
Local Open Scope R_scope.








End EntropyBounds.




(** ** [hist_of_entropy]: collection and failure *)

Lemma get_entropy_returns_finite e xcol ycol :
  rows (dataframe (dropped e)) <> [] ->
  column_in_range (dataframe e) xcol ->
  column_in_range (dataframe e) ycol ->
  exists v : R, get_entropy xcol ycol e = (dropped e, Returned (Fin v)).
Proof.
  unfold dropped. intros Hne Hx Hy.
  destruct (drop_first_observations_cases e) as [[Hr He] | (_ & Hd & Hw)].
  { exfalso. apply Hne. rewrite He. exact Hr. }
  set (e' := fst (drop_first_observations e)) in *.
  unfold column_in_range in Hx, Hy. rewrite <- Hw in Hx, Hy.
  destruct (iloc_column_in_range _ _ Hx) as (xs & Hxs & Hlx).
  destruct (iloc_column_in_range _ _ Hy) as (ys & Hys & Hly).
  eexists. rewrite (get_entropy_run xcol ycol e e' xs ys Hd Hxs Hys).
  rewrite histogram_entropy_shannon; [reflexivity|].
  rewrite histogram2d_total by lia.
  unfold correct_signs. rewrite !correct_signs_thres_length, Hlx, Hly, Nat.min_id.
  destruct (rows (dataframe e')); [contradiction | simpl; lia].
Qed.

Lemma each_experiment_stops {A : Type} (m : method Experiment A)
    (f : Experiment -> Experiment) pre e e' err post :
  (forall p, In p pre -> exists a, m p = (f p, Returned a)) ->
  m e = (e', Raised err) ->
  each_experiment m (pre ++ e :: post) = (map f pre ++ e' :: post, Raised err).
Proof.
  intros Hpre He. induction pre as [|p pre IH]; simpl.
  - rewrite He. reflexivity.
  - destruct (Hpre p (or_introl eq_refl)) as [a Ha]. rewrite Ha.
    rewrite IH; [reflexivity|]. intros q Hq. apply Hpre. now right.
Qed.




(** X7. [hist_of_entropy] is not atomic.  When the experiments before one
    return and that one raises, the call raises the same error with no
    result and no plot, whatever the plot directory; the earlier
    experiments and the failing one keep what their calls did to them, the
    later ones are untouched. *)
Theorem hist_of_entropy_fails_midway :
  forall (w : World) (xcol ycol : Z) (plotdir : option string)
         (pre post : list Experiment) (e e' : Experiment) (err : error),
    experiments (self w) = pre ++ e :: post ->
    (forall p, In p pre -> exists a, get_entropy xcol ycol p = (dropped p, Returned a)) ->
    get_entropy xcol ycol e = (e', Raised err) ->
    hist_of_entropy xcol ycol plotdir w
    = (with_experiments w (map dropped pre ++ e' :: post), Raised err).
Proof.
  intros w xcol ycol plotdir pre post e e' err Hexps Hpre He.
  unfold hist_of_entropy, bind, over_experiments. rewrite Hexps.
  rewrite (each_experiment_stops (get_entropy xcol ycol) dropped pre e e' err post Hpre He).
  reflexivity.
Qed.

Lemma hist_of_entropy_fails_midway_witness :
  let first := experiment_of (angle_table [(0, 0); (1, 1)]%Q) in
  let second := experiment_of (angle_table []) in
  let third := experiment_of (angle_table [(0, 0); (1, 1)]%Q) in
  let w := analysis_world [angle_table [(0, 0); (1, 1)]%Q; angle_table [];
                           angle_table [(0, 0); (1, 1)]%Q] in
  hist_of_entropy 8 9 (Some "plots/"%string) w
  = (with_experiments w [dropped first; second; third],
     Raised (IndexError FirstRowLabel)).
Proof.
  intros first second third w.
  apply (hist_of_entropy_fails_midway w 8%Z 9%Z (Some "plots/"%string)
           [first] [third] second second (IndexError FirstRowLabel)).
  - reflexivity.
  - intros p [<- | []].
    destruct (get_entropy_returns_finite first 8%Z 9%Z) as [v Hv].
    + vm_compute. discriminate.
    + vm_compute. split; [discriminate | reflexivity].
    + vm_compute. split; [discriminate | reflexivity].
    + exists (Fin v). exact Hv.
  - apply get_entropy_on_empty. reflexivity.
Defined.

(** ** The traversal over mers consumes rows *)

Lemma after_drops_zero e : after_drops 0 e = e.
Proof. destruct e as [[wd rs] ch cols]. reflexivity. Qed.

Lemma after_drops_succ n e : after_drops n (after_drops 1 e) = after_drops (S n) e.
Proof.
  unfold after_drops. simpl width. simpl chain. simpl columns.
  cbn [rows dataframe]. rewrite skipn_skipn.
  replace (n + 1) with (S n) by lia. reflexivity.
Qed.

Lemma get_entropy_returned xcol ycol e e' a :
  get_entropy xcol ycol e = (e', Returned a) ->
  NoDup (labels e) ->
  e' = after_drops 1 e
  /\ 1 <= length (rows (dataframe e))
  /\ NoDup (labels e').
Proof.
  intros Hrun Hn.
  destruct (rows (dataframe e)) as [|r rest] eqn:Hr.
  - rewrite (get_entropy_on_empty xcol ycol e Hr) in Hrun. discriminate.
  - pose proof (get_entropy_state xcol ycol e) as Hs.
    rewrite Hrun, (drop_first_rows e r rest Hr Hn) in Hs. simpl in Hs. subst e'.
    split; [|split].
    + unfold after_drops. rewrite Hr. reflexivity.
    + simpl. lia.
    + unfold labels in *. rewrite Hr in Hn. simpl in *.
      now apply NoDup_cons_iff in Hn.
Qed.

Lemma each_experiment_returned xcol ycol exps :
  forall exps' l,
    each_experiment (get_entropy xcol ycol) exps = (exps', Returned l) ->
    Forall (fun e => NoDup (labels e)) exps ->
    exps' = map (after_drops 1) exps
    /\ Forall (fun e => 1 <= length (rows (dataframe e))) exps
    /\ Forall (fun e => NoDup (labels e)) exps'.
Proof.
  induction exps as [|e rest IH]; intros exps' l Hrun Hn; simpl in Hrun.
  - injection Hrun as <- <-. repeat split; constructor.
  - inversion Hn as [|? ? Hne Hnr]; subst.
    destruct (get_entropy xcol ycol e) as [e1 [a|err]] eqn:He; [|discriminate].
    destruct (each_experiment (get_entropy xcol ycol) rest) as [rest' [l'|err]] eqn:Hrest;
      [|discriminate].
    injection Hrun as <- <-.
    destruct (get_entropy_returned _ _ _ _ _ He Hne) as (E1 & E2 & E3).
    destruct (IH rest' l' eq_refl Hnr) as (I1 & I2 & I3).
    subst e1 rest'. repeat split; constructor; assumption.
Qed.

Lemma per_mer_traversal_rows offset xcol ycol mers :
  forall w w1 ents,
    for_list (fun mer =>
                entropies_for (xcol + offset * Z.of_nat mer) (ycol + offset * Z.of_nat mer))
             mers w = (w1, Returned ents) ->
    Forall (fun e => NoDup (labels e)) (experiments (self w)) ->
    experiments (self w1) = map (after_drops (length mers)) (experiments (self w))
    /\ Forall (fun e => length mers <= length (rows (dataframe e))) (experiments (self w)).
Proof.
  induction mers as [|mer rest IH]; intros w w1 ents Hrun Hn.
  - simpl in Hrun. injection Hrun as <- _. split.
    + rewrite (map_ext _ (fun e => e)) by apply after_drops_zero.
      now rewrite map_id.
    + apply Forall_forall. intros e _. simpl. lia.
  - simpl in Hrun. unfold bind in Hrun.
    destruct (entropies_for _ _ w) as [w0 [l|err]] eqn:H0; [|discriminate].
    destruct (for_list _ rest w0) as [w2 [ents'|err]] eqn:H2; [|discriminate].
    injection Hrun as <- _.
    unfold entropies_for, over_experiments in H0.
    destruct (each_experiment _ (experiments (self w))) as [exps0 out0] eqn:He.
    injection H0 as <- ->.
    destruct (each_experiment_returned _ _ _ _ _ He Hn) as (E1 & E2 & E3).
    destruct (IH _ _ _ H2) as [I1 I2]; [exact E3|].
    simpl experiments in I1, I2. subst exps0. split.
    + rewrite I1, map_map. apply map_ext. intros e. apply after_drops_succ.
    + rewrite Forall_forall in *. intros e Hin.
      specialize (E2 e Hin).
      specialize (I2 (after_drops 1 e) (in_map _ _ _ Hin)).
      unfold after_drops in I2. cbn [rows dataframe] in I2.
      rewrite length_skipn in I2. simpl length. lia.
Qed.

Lemma percentile_mode_inversion xcol ycol plotdir no_mers w w' v :
  entropy_distribution_percentiles xcol ycol plotdir no_mers w = (w', Returned v) ->
  exists w1 ents,
    per_mer_entropies (magic_number (self w)) xcol ycol no_mers w = (w1, Returned ents)
    /\ self w' = self w1.
Proof.
  intros Hrun.
  assert (Hne : experiments (self w) <> []).
  { intros H0. revert Hrun.
    unfold entropy_distribution_percentiles, bind at 1, percentile_bands.
    destruct (range no_mers) as [|mer rest].
    - cbn [percentile_loop]. unfold ret, bind at 1, column_description.
      rewrite H0. discriminate.
    - pose proof (percentile_loop_empty_set xcol ycol mer rest
                    {| median_entropy := []; entropy_perc5 := []; entropy_perc95 := [] |}
                    w H0) as (w0 & E & _).
      rewrite E. discriminate. }
  revert Hrun.
  unfold entropy_distribution_percentiles, bind at 1.
  rewrite (percentile_bands_spec _ _ _ _ Hne).
  destruct (per_mer_entropies _ _ _ _ w) as [w1 [ents|err]]; [|discriminate].
  destruct (column_description_spec xcol w1) as (Hx & _ & _).
  unfold bind at 1. rewrite Hx.
  destruct (snd (column_description xcol w1)); [|discriminate].
  destruct (column_description_spec ycol w1) as (Hy & _ & _).
  unfold bind at 1. rewrite Hy.
  destruct (snd (column_description ycol w1)); [|discriminate].
  unfold bind, get, emit, ret. simpl. intros [= <- _].
  exists w1, ents. split; reflexivity.
Qed.

(** X8. Percentile mode uses up the data: since every mer calls
    [get_entropy] on every experiment, a call that returns leaves each
    table exactly [no_mers] rows shorter, which it can only do when every
    table held at least [no_mers] rows (row labels distinct, as
    construction makes them). *)
Theorem percentile_mode_consumes_rows :
  forall (w w' : World) (xcol ycol : Z) (plotdir : string) (no_mers : Z)
         (v : list npfloat),
    Forall (fun e => NoDup (labels e)) (experiments (self w)) ->
    entropy_distribution_percentiles xcol ycol plotdir no_mers w = (w', Returned v) ->
    experiments (self w')
    = map (after_drops (Z.to_nat no_mers)) (experiments (self w))
    /\ Forall (fun e => Z.to_nat no_mers <= length (rows (dataframe e)))
              (experiments (self w)).
Proof.
  intros w w' xcol ycol plotdir no_mers v Hn Hrun.
  destruct (percentile_mode_inversion _ _ _ _ _ _ _ Hrun) as (w1 & ents & Ht & ->).
  unfold per_mer_entropies in Ht.
  destruct (per_mer_traversal_rows _ _ _ _ _ _ _ Ht Hn) as [H1 H2].
  unfold range in H1, H2. rewrite length_seq in H1, H2. split; assumption.
Qed.

Lemma percentile_mode_consumes_rows_witness :
  experiments (self (fst (entropy_distribution_percentiles 8 9 "plots" 1 two_run_world)))
  = map (after_drops (Z.to_nat 1)) (experiments (self two_run_world))
  /\ Forall (fun e => Z.to_nat 1 <= length (rows (dataframe e)))
            (experiments (self two_run_world)).
Proof.
  apply (percentile_mode_consumes_rows two_run_world
           (fst (entropy_distribution_percentiles 8 9 "plots" 1 two_run_world))
           8%Z 9%Z "plots"%string 1%Z
           (map np_median [[Fin 0%R; Fin (R_gas * ln 2)%R]])).
  - apply Forall_cons; [apply experiment_of_labels|].
    apply Forall_cons; [apply experiment_of_labels | apply Forall_nil].
  - destruct two_run_descriptions as [Hx Hy].
    rewrite (percentile_mode_run two_run_world 8 9 "plots" 1 two_run_after
               [[Fin 0%R; Fin (R_gas * ln 2)%R]] _ _ two_run_traversal Hx Hy).
    reflexivity.
Defined.




(** ** The percentile band is ordered *)

Section PercentileOrder.
Local Open Scope R_scope.

Lemma insert_sorted_Fin x ss :
  StronglySorted Rle ss ->
  exists ss',
    insert_sorted (Fin x) (map Fin ss) = map Fin ss'
    /\ StronglySorted Rle ss'
    /\ length ss' = S (length ss)
    /\ (forall y, In y ss' -> y = x \/ In y ss).
Proof.
  induction ss as [|y ss IH]; intros Hs.
  - exists [x]. split; [reflexivity|]. split; [repeat constructor|].
    split; [reflexivity|]. intros z [<- | []]. now left.
  - inversion Hs as [|? ? Hss Hy]; subst. simpl.
    destruct (Rle_dec x y) as [Hxy | Hxy].
    + exists (x :: y :: ss). split; [reflexivity|]. split; [|split; [reflexivity|]].
      * constructor; [exact Hs|]. constructor; [exact Hxy|].
        rewrite Forall_forall in *. intros z Hz. specialize (Hy z Hz). lra.
      * intros z [<- | Hz]; [now left | now right].
    + destruct (IH Hss) as (ss' & E & S' & L & I).
      exists (y :: ss'). rewrite E. split; [reflexivity|]. split; [|split].
      * constructor; [exact S'|]. rewrite Forall_forall in *.
        intros z Hz. destruct (I z Hz) as [-> | Hin]; [lra | now apply Hy].
      * simpl. now rewrite L.
      * intros z [<- | Hz]; [right; now left|].
        destruct (I z Hz) as [-> | Hin]; [now left | right; now right].
Qed.

Lemma np_sort_Fin rs :
  exists ss,
    np_sort (map Fin rs) = map Fin ss
    /\ StronglySorted Rle ss
    /\ length ss = length rs.
Proof.
  induction rs as [|x rs IH].
  - exists []. split; [reflexivity|]. split; [constructor | reflexivity].
  - destruct IH as (ss & E & S' & L).
    destruct (insert_sorted_Fin x ss S') as (ss' & E' & S'' & L' & _).
    exists ss'. unfold np_sort in *. simpl. rewrite E, E'.
    split; [reflexivity|]. split; [exact S'' | simpl; lia].
Qed.

Lemma sorted_nth_le ss :
  StronglySorted Rle ss ->
  forall i j, (i <= j)%nat -> (j < length ss)%nat -> nth i ss 0 <= nth j ss 0.
Proof.
  induction 1 as [|x ss Hs IH Hx]; intros i j Hij Hj; [simpl in Hj; lia|].
  destruct j as [|j].
  - replace i with 0%nat by lia. lra.
  - destruct i as [|i].
    + simpl. rewrite Forall_forall in Hx. apply Hx. apply nth_In. simpl in Hj. lia.
    + simpl. apply IH; simpl in Hj; lia.
Qed.

Lemma no_nan_in_Fin rs : existsb is_nan (map Fin rs) = false.
Proof. induction rs as [|x rs IH]; [reflexivity | exact IH]. Qed.

Lemma nth_map_Fin ss k :
  (k < length ss)%nat -> nth k (map Fin ss) NaN = Fin (nth k ss 0).
Proof.
  intros Hk. rewrite (nth_indep _ NaN (Fin 0)) by (now rewrite length_map).
  apply map_nth.
Qed.

Lemma interpolate_between ss p :
  StronglySorted Rle ss ->
  (p / 100 < length ss)%nat ->
  nth (p / 100) ss 0 <= interpolate ss p
  <= nth (Nat.min (p / 100 + 1) (length ss - 1)) ss 0.
Proof.
  intros Hs Hk. unfold interpolate.
  set (a := nth (p / 100) ss 0).
  set (b := nth (Nat.min (p / 100 + 1) (length ss - 1)) ss 0).
  assert (Hab : a <= b) by (apply sorted_nth_le; [exact Hs | lia | lia]).
  pose proof (Nat.mod_upper_bound p 100 ltac:(lia)) as Hm.
  assert (Hg0 : 0 <= INR (p mod 100) / 100).
  { apply Rle_mult_inv_pos; [apply pos_INR | lra]. }
  assert (Hg1 : INR (p mod 100) / 100 <= 1).
  { apply (Rmult_le_reg_r 100); [lra|].
    replace (INR (p mod 100) / 100 * 100) with (INR (p mod 100)) by (field; lra).
    rewrite Rmult_1_l. replace 100 with (INR 100) by (rewrite INR_IZR_INZ; reflexivity).
    apply le_INR. lia. }
  split; nra.
Qed.

(** The interpolated value does not decrease with the position. *)
Lemma interpolate_mono ss p1 p2 :
  StronglySorted Rle ss ->
  (p1 <= p2)%nat -> (p2 <= (length ss - 1) * 100)%nat -> (0 < length ss)%nat ->
  interpolate ss p1 <= interpolate ss p2.
Proof.
  intros Hs H12 H2 Hlen.
  pose proof (Nat.div_mod_eq p1 100) as E1.
  pose proof (Nat.div_mod_eq p2 100) as E2.
  pose proof (Nat.mod_upper_bound p1 100 ltac:(lia)) as M1.
  pose proof (Nat.mod_upper_bound p2 100 ltac:(lia)) as M2.
  assert (K2 : (p2 / 100 < length ss)%nat) by lia.
  assert (K1 : (p1 / 100 <= p2 / 100)%nat) by lia.
  destruct (Nat.eq_dec (p1 / 100) (p2 / 100)) as [Heq | Hne].
  - unfold interpolate. rewrite Heq.
    set (a := nth (p2 / 100) ss 0).
    set (b := nth (Nat.min (p2 / 100 + 1) (length ss - 1)) ss 0).
    assert (Hab : a <= b) by (apply sorted_nth_le; [exact Hs | lia | lia]).
    assert (Hg : INR (p1 mod 100) / 100 <= INR (p2 mod 100) / 100).
    { apply Rmult_le_compat_r; [lra|]. apply le_INR. lia. }
    nra.
  - pose proof (interpolate_between ss p1 Hs ltac:(lia)) as [_ U1].
    pose proof (interpolate_between ss p2 Hs K2) as [L2 _].
    assert (Hmid : nth (Nat.min (p1 / 100 + 1) (length ss - 1)) ss 0
                   <= nth (p2 / 100) ss 0).
    { apply sorted_nth_le; [exact Hs | lia | exact K2]. }
    lra.
Qed.

Lemma percentile_linear_Fin rs ss q :
  np_sort (map Fin rs) = map Fin ss ->
  length ss = length rs ->
  (0 < length rs)%nat -> (q <= 100)%nat ->
  percentile_linear (map Fin rs) q = Fin (interpolate ss ((length rs - 1) * q)).
Proof.
  intros Hsort Hlen Hpos Hq. unfold percentile_linear.
  rewrite length_map, no_nan_in_Fin, Hsort.
  cbv zeta. cbv iota.
  set (p := ((length rs - 1) * q)%nat).
  pose proof (Nat.div_mod_eq p 100) as E.
  pose proof (Nat.mod_upper_bound p 100 ltac:(lia)) as M.
  assert (Hp : (p <= (length rs - 1) * 100)%nat).
  { subst p. apply Nat.mul_le_mono_l. exact Hq. }
  rewrite !nth_map_Fin by lia.
  unfold interpolate. rewrite Hlen. fold p.
  set (a := nth (p / 100) ss 0).
  set (b := nth (Nat.min (p / 100 + 1) (length rs - 1)) ss 0).
  destruct (50 <=? p mod 100)%nat; simpl; f_equal; field.
Qed.

Lemma np_median_Fin rs ss :
  np_sort (map Fin rs) = map Fin ss ->
  length ss = length rs ->
  (0 < length rs)%nat ->
  np_median (map Fin rs) = Fin (interpolate ss ((length rs - 1) * 50)).
Proof.
  intros Hsort Hlen Hpos. unfold np_median.
  rewrite length_map, no_nan_in_Fin, Hsort.
  assert (Hz : (length rs =? 0)%nat = false) by (apply Nat.eqb_neq; lia).
  rewrite Hz. cbv zeta. simpl orb. cbv iota.
  set (n := length rs) in *.
  set (p := ((n - 1) * 50)%nat).
  pose proof (Nat.div_mod_eq p 100) as E.
  pose proof (Nat.mod_upper_bound p 100 ltac:(lia)) as M.
  pose proof (Nat.div_mod_eq n 2) as E2.
  pose proof (Nat.mod_upper_bound n 2 ltac:(lia)) as M2.
  unfold interpolate. rewrite Hlen. fold p.
  destruct (Nat.odd n) eqn:Hodd.
  - apply Nat.odd_spec in Hodd. destruct Hodd as [m Hm].
    assert (Hk : (p / 100 = n / 2)%nat) by (subst p; lia).
    assert (Hr : (p mod 100 = 0)%nat) by (subst p; lia).
    rewrite Hk, Hr, nth_map_Fin by lia. change (INR 0) with 0.
    now rewrite Rdiv_0_l, Rmult_0_r, Rplus_0_r.
  - assert (Heven : Nat.even n = true) by (rewrite <- Nat.negb_odd, Hodd; reflexivity).
    apply Nat.even_spec in Heven. destruct Heven as [m Hm].
    assert (Hk : (p / 100 = n / 2 - 1)%nat) by (subst p; lia).
    assert (Hr : (p mod 100 = 50)%nat) by (subst p; lia).
    rewrite Hk, Hr.
    replace (Nat.min (n / 2 - 1 + 1) (n - 1)) with (n / 2)%nat by lia.
    rewrite !nth_map_Fin by lia. unfold npadd, npdiv.
    rewrite (Rsign_pos 2) by lra. f_equal.
    replace (INR 50) with 50 by (rewrite INR_IZR_INZ; reflexivity). field.
Qed.

Lemma band_of_finite_list rs :
  (0 < length rs)%nat ->
  exists p5 m p95,
    percentile_linear (map Fin rs) 5 = Fin p5
    /\ np_median (map Fin rs) = Fin m
    /\ percentile_linear (map Fin rs) 95 = Fin p95
    /\ p5 <= m <= p95.
Proof.
  intros Hpos. destruct (np_sort_Fin rs) as (ss & Hsort & Hs & Hlen).
  exists (interpolate ss ((length rs - 1) * 5)),
         (interpolate ss ((length rs - 1) * 50)),
         (interpolate ss ((length rs - 1) * 95)).
  split; [apply percentile_linear_Fin; auto; lia|].
  split; [apply np_median_Fin; auto|].
  split; [apply percentile_linear_Fin; auto; lia|].
  split; apply interpolate_mono; try exact Hs; rewrite ?Hlen; lia.
Qed.

End PercentileOrder.

(** X10. On a set that owns at least one experiment, when the traversal
    yields finite entropies only, the three lists of the percentile loop
    are ordered at every mer: 5th percentile <= median <= 95th
    percentile. *)
Theorem percentile_band_is_ordered :
  forall (w w1 : World) (xcol ycol no_mers : Z) (rss : list (list R)),
    experiments (self w) <> [] ->
    per_mer_entropies (magic_number (self w)) xcol ycol no_mers w
    = (w1, Returned (map (map Fin) rss)) ->
    exists b : bands,
      percentile_bands xcol ycol no_mers w = (w1, Returned b)
      /\ forall i, i < Z.to_nat no_mers ->
           exists p5 m p95 : R,
             nth i (entropy_perc5 b) NaN = Fin p5
             /\ nth i (median_entropy b) NaN = Fin m
             /\ nth i (entropy_perc95 b) NaN = Fin p95
             /\ (p5 <= m <= p95)%R.
Proof.
  intros w w1 xcol ycol no_mers rss Hne Hrun.
  exists (reduce_bands (map (map Fin) rss)). split.
  - rewrite (percentile_bands_spec _ _ _ _ Hne), Hrun. reflexivity.
  - destruct (per_mer_entropies_spec _ _ _ _ _ _ _ Hrun) as (_ & Hlen & Hrows).
    rewrite length_map in Hlen. intros i Hi.
    assert (Hrs : 0 < length (nth i rss [])).
    { rewrite Forall_forall in Hrows.
      specialize (Hrows (map Fin (nth i rss []))).
      rewrite length_map in Hrows. rewrite Hrows.
      - destruct (experiments (self w)); [contradiction | simpl; lia].
      - apply in_map. apply nth_In. lia. }
    destruct (band_of_finite_list _ Hrs) as (p5 & m & p95 & H5 & Hm & H95 & Hord).
    exists p5, m, p95. unfold reduce_bands. simpl.
    rewrite !map_map.
    rewrite (nth_indep _ NaN (percentile_linear (map Fin []) 5))
      by (rewrite length_map; lia).
    rewrite (map_nth (fun rs => percentile_linear (map Fin rs) 5)).
    rewrite (nth_indep (map _ rss) NaN (np_median (map Fin [])))
      by (rewrite length_map; lia).
    rewrite (map_nth (fun rs => np_median (map Fin rs))).
    rewrite (nth_indep (map _ rss) NaN (percentile_linear (map Fin []) 95))
      by (rewrite length_map; lia).
    rewrite (map_nth (fun rs => percentile_linear (map Fin rs) 95)).
    repeat split; try assumption; apply Hord.
Qed.

Lemma percentile_band_is_ordered_witness :
  exists b : bands,
    percentile_bands 8 9 1 two_run_world = (two_run_after, Returned b)
    /\ forall i, i < Z.to_nat 1 ->
         exists p5 m p95 : R,
           nth i (entropy_perc5 b) NaN = Fin p5
           /\ nth i (median_entropy b) NaN = Fin m
           /\ nth i (entropy_perc95 b) NaN = Fin p95
           /\ (p5 <= m <= p95)%R.
Proof.
  apply (percentile_band_is_ordered two_run_world two_run_after 8%Z 9%Z 1%Z
           [[0%R; (R_gas * ln 2)%R]]).
  - discriminate.
  - exact two_run_traversal.
Defined.

(** ** Realisation mode on twelve or more realisations *)

Lemma realisation_column_all pre grid j :
  Forall (fun row => j < length row) grid ->
  realisation_column (pre ++ grid) (seq (length pre) (length grid)) j
  = Returned (map (fun row => nth j row NaN) grid).
Proof.
  revert pre. induction grid as [|row grid IH]; intros pre Hrows; [reflexivity|].
  inversion Hrows as [|? ? Hrow Hrest]; subst.
  simpl length. simpl seq. simpl realisation_column.
  rewrite nth_middle.
  destruct (nth_error row j) as [v|] eqn:Hv; [|apply nth_error_None in Hv; lia].
  specialize (IH (pre ++ [row]) Hrest).
  rewrite <- app_assoc, length_app in IH. simpl in IH.
  replace (length pre + 1) with (S (length pre)) in IH by lia.
  rewrite IH. simpl map. f_equal. f_equal.
  symmetry. now apply nth_error_nth.
Qed.

Lemma for_each_emits {A : Type} (col : nat -> outcome A) (f : nat -> A)
    (plot : nat -> A -> effect) js :
  forall w : World,
    (forall j, In j js -> col j = Returned (f j)) ->
    for_each (fun j => e <- lift (col j) ;; emit (plot j e)) js w
    = (with_emitted w (emitted w ++ map (fun j => plot j (f j)) js), Returned tt).
Proof.
  induction js as [|j js IH]; intros w Hcol.
  - simpl. unfold ret, with_emitted. rewrite app_nil_r. now destruct w.
  - simpl. unfold bind at 1. unfold bind at 1, lift.
    rewrite (Hcol j (or_introl eq_refl)). unfold emit.
    rewrite IH by (intros j' Hj'; apply Hcol; now right).
    unfold with_emitted. simpl. rewrite <- app_assoc. reflexivity.
Qed.

(** X11. On a set of at least twelve experiments, when the traversal over
    at least one mer and the two label lookups succeed, realisation mode
    returns; it plots exactly twelve trajectories, those of the realisations
    1..12 (slots 0..11 of every per-mer list), so that a thirteenth or later
    realisation is computed but never shown. *)
Theorem realisation_mode_plots_twelve :
  forall (w w1 : World) (xcol ycol : Z) (plotdir : string) (no_mers : Z)
         (ents : list (list npfloat)) (xdesc ydesc : string),
    12 <= length (experiments (self w)) ->
    (0 < no_mers)%Z ->
    per_mer_entropies (magic_number (self w)) xcol ycol no_mers w = (w1, Returned ents) ->
    snd (column_description xcol w1) = Returned xdesc ->
    snd (column_description ycol w1) = Returned ydesc ->
    entropy_distribution_realisations xcol ycol plotdir no_mers w
    = ({| self := self w1;
          emitted := emitted w ++ highest_first_mer no_mers
                       :: realisation_plot (self w1) plotdir no_mers ents xdesc ydesc |},
       Returned tt).
Proof.
  intros w w1 xcol ycol plotdir no_mers ents xdesc ydesc HL Hpos Hr Hxd Hyd.
  assert (Hn : 0 < Z.to_nat no_mers) by lia.
  set (eff := emitted w ++ [highest_first_mer no_mers]).
  pose proof (per_mer_entropies_emitted (magic_number (self w)) xcol ycol no_mers w eff)
    as Hemit.
  rewrite Hr in Hemit. simpl fst in Hemit. simpl snd in Hemit.
  set (w2 := with_emitted w1 eff) in *.
  destruct (per_mer_entropies_spec _ _ _ _ _ _ _ Hr)
    as ((_ & _ & _ & _ & Hexp & _) & Hlen & Hrows).
  assert (Hloop :
    realisation_loop xcol ycol (range no_mers)
      (repeat (repeat (Fin 0%R) no_struct) (Z.to_nat no_mers)) (with_emitted w eff)
    = (w2, Returned ents)).
  { unfold range.
    rewrite realisation_loop_spec by (rewrite repeat_length; lia).
    change (magic_number (self (with_emitted w eff))) with (magic_number (self w)).
    unfold per_mer_entropies, range in Hemit. rewrite Hemit.
    rewrite skipn_all2 by (rewrite repeat_length; lia).
    simpl firstn. rewrite app_nil_r. reflexivity. }
  assert (Hstart :
    entropy_distribution_realisations xcol ycol plotdir no_mers w
    = bind (realisation_loop xcol ycol (range no_mers)
              (repeat (repeat (Fin 0%R) no_struct) (Z.to_nat no_mers)))
           (fun grid =>
              xdesc <- column_description xcol ;;
              ydesc <- column_description ycol ;;
              w0 <- get ;;
              for_each (fun j =>
                  e <- lift (realisation_column grid (range no_mers) j) ;;
                  emit (PltPlot (first_mers no_mers) e None
                          (Grey ((5 # 6) * (1 - inject_Z (Z.of_nat j)
                                                / inject_Z (Z.of_nat no_struct)))%Q)
                          (Some (str_nat (j + 1)))))
                (seq 0 no_struct) ;;;
              emit PltLegend ;;;
              emit (PltTitle (chain_type (self w0) ++ ", ion " ++ ion (self w0))%string) ;;;
              emit (PltXlabel "number of first mer") ;;;
              emit (PltYlabel ("entropy  " ++ xdesc ++ " vs. " ++ ydesc)%string) ;;;
              emit (PltSavefig (os_path_join plotdir
                      ("entropy_reals_" ++ chain_type (self w0) ++ "_"
                       ++ ion (self w0) ++ "_" ++ xdesc ++ "_" ++ ydesc
                       ++ ".pdf")%string)) ;;;
              emit PltClf)
           (with_emitted w eff)).
  { unfold entropy_distribution_realisations, first_mers.
    rewrite last_first_mer by lia. reflexivity. }
  rewrite Hstart. clear Hstart.
  unfold bind at 1. rewrite Hloop.
  destruct (column_description_spec xcol w2) as (Hx1 & _ & _).
  destruct (column_description_spec xcol w1) as (_ & Hx2 & _).
  specialize (Hx2 eff). fold w2 in Hx2.
  unfold bind at 1. rewrite Hx1, Hx2, Hxd.
  destruct (column_description_spec ycol w2) as (Hy1 & _ & _).
  destruct (column_description_spec ycol w1) as (_ & Hy2 & _).
  specialize (Hy2 eff). fold w2 in Hy2.
  unfold bind at 1. rewrite Hy1, Hy2, Hyd.
  unfold bind at 1, get. unfold bind at 1.
  rewrite (for_each_emits _ (fun j => map (fun row => nth j row NaN) ents)).
  - unfold bind, emit, ret, realisation_plot, w2, eff, with_emitted.
    cbn [self emitted]. rewrite <- !app_assoc. reflexivity.
  - intros j Hj. apply in_seq in Hj. unfold range. rewrite <- Hlen.
    apply (realisation_column_all [] ents j).
    rewrite Forall_forall in *. intros row Hrow. rewrite (Hrows row Hrow).
    unfold no_struct in Hj. lia.
Qed.

Lemma realisation_mode_plots_twelve_witness :
  let w := analysis_world (twelve_tables (angle_table [(0, 0); (1, 1)]%Q)) in
  exists (w1 : World) (ents : list (list npfloat)) (xdesc ydesc : string),
    entropy_distribution_realisations 8 9 "plots" 1 w
    = ({| self := self w1;
          emitted := emitted w ++ highest_first_mer 1
                       :: realisation_plot (self w1) "plots" 1 ents xdesc ydesc |},
       Returned tt).
Proof.
  intros w. eexists. eexists. eexists. eexists.
  apply (realisation_mode_plots_twelve w).
  - vm_compute. lia.
  - lia.
  - lazy -[histogram_entropy]. reflexivity.
  - reflexivity.
  - reflexivity.
Defined.

(** ** Construction of a set *)

Lemma load_experiments_all fs data_path names :
  (forall name, In name names -> fs (os_path_join data_path name) <> None) ->
  exists exps,
    load_experiments fs data_path names = Returned exps
    /\ Forall2 (fun name e => Experiment_init fs (os_path_join data_path name) = Returned e)
               names exps.
Proof.
  induction names as [|name rest IH]; intros Hall.
  - exists []. split; [reflexivity | constructor].
  - destruct (fs (os_path_join data_path name)) as [t|] eqn:Hf;
      [|exfalso; now apply (Hall name (or_introl eq_refl))].
    destruct (Experiment_init_returns fs _ t Hf) as [df Hdf].
    destruct IH as (exps & Hl & Hf2); [intros n' Hn'; apply Hall; now right|].
    eexists. split.
    + simpl. rewrite Hdf, Hl. reflexivity.
    + constructor; assumption.
Qed.

Lemma load_experiments_first_missing fs data_path pre name post :
  (forall p, In p pre -> fs (os_path_join data_path p) <> None) ->
  fs (os_path_join data_path name) = None ->
  load_experiments fs data_path (pre ++ name :: post)
  = Raised (FileNotFoundError (os_path_join data_path name)).
Proof.
  intros Hpre Hmiss. induction pre as [|p pre IH]; simpl.
  - unfold Experiment_init, read_csv. rewrite Hmiss. reflexivity.
  - destruct (fs (os_path_join data_path p)) as [t|] eqn:Hf;
      [|exfalso; now apply (Hpre p (or_introl eq_refl))].
    destruct (Experiment_init_returns fs _ t Hf) as [df ->].
    rewrite IH; [reflexivity|]. intros q Hq. apply Hpre. now right.
Qed.

Lemma load_experiments_returned fs data_path names :
  forall exps,
    load_experiments fs data_path names = Returned exps ->
    Forall2 (fun name e => Experiment_init fs (os_path_join data_path name) = Returned e)
            names exps.
Proof.
  induction names as [|name rest IH]; intros exps; simpl.
  - intros [= <-]. constructor.
  - destruct (Experiment_init fs (os_path_join data_path name)) as [e|] eqn:He;
      [|discriminate].
    destruct (load_experiments fs data_path rest) as [l|]; [|discriminate].
    intros [= <-]. constructor; [exact He | now apply IH].
Qed.

Lemma chain_name_accepted (chain : string) :
  In chain ["analysis"%string; "sidechain"%string] ->
  negb (existsb (String.eqb chain) ["analysis"%string; "sidechain"%string]) = false
  /\ dict_get magic_numbers chain
     = Some (if String.eqb chain "analysis" then 4%Z else 1%Z).
Proof.
  intros [<- | [<- | []]]; split; reflexivity.
Qed.

(** X12. Construction of a set with an accepted chain name reads the files
    [{prefix}_{i+1}_{chain}_{ion}.tab] under the data path for
    i = 0 .. no_experiments-1, in that order.  When all can be read the set
    owns the experiments built from them, in order, with magic number 4 for
    'analysis' and 1 for 'sidechain'; otherwise construction raises for the
    first file that is missing and no set exists. *)
Theorem set_construction_reads_files_in_order :
  forall (fs : FileSystem) (data_path experiment_prefix ion chain : string) (n : Z),
    In chain ["analysis"%string; "sidechain"%string] ->
    let path := experiment_path data_path experiment_prefix chain ion in
    ((forall i, i < Z.to_nat n -> fs (path i) <> None) ->
     exists s,
       SetOfExperiments_init fs data_path experiment_prefix ion chain n = Returned s
       /\ Forall2 (fun i e => Experiment_init fs (path i) = Returned e)
                  (range n) (experiments s)
       /\ magic_number s = (if String.eqb chain "analysis" then 4%Z else 1%Z)
       /\ chain_type s = chain
       /\ no_experiments s = n)
    /\ (forall k,
           k < Z.to_nat n ->
           (forall i, i < k -> fs (path i) <> None) ->
           fs (path k) = None ->
           SetOfExperiments_init fs data_path experiment_prefix ion chain n
           = Raised (FileNotFoundError (path k))).
Proof.
  intros fs data_path experiment_prefix ion chain n Hchain path.
  destruct (chain_name_accepted chain Hchain) as [Hok Hmagic].
  split.
  - intros Hall.
    destruct (load_experiments_all fs data_path
                (map (experiment_file_name experiment_prefix chain ion) (range n)))
      as (exps & Hl & Hf).
    { intros name Hin. apply in_map_iff in Hin. destruct Hin as (i & <- & Hi).
      apply in_seq in Hi. apply (Hall i). lia. }
    eexists. split; [|split; [|split; [|split]]].
    + unfold SetOfExperiments_init. rewrite Hok, Hmagic, Hl. reflexivity.
    + simpl. clear Hl. revert Hf. generalize (range n) as idx.
      intros idx. revert exps.
      induction idx as [|i idx IH]; intros exps Hf; inversion Hf; subst;
        constructor; auto.
    + reflexivity.
    + reflexivity.
    + reflexivity.
  - intros k Hk Hbefore Hmiss.
    unfold SetOfExperiments_init. rewrite Hok, Hmagic. unfold range.
    replace (Z.to_nat n) with (k + S (Z.to_nat n - S k)) by lia.
    rewrite seq_app, map_app. simpl seq. simpl map.
    rewrite (load_experiments_first_missing fs data_path).
    + reflexivity.
    + intros p Hin. apply in_map_iff in Hin. destruct Hin as (i & <- & Hi).
      apply in_seq in Hi. apply (Hbefore i). lia.
    + exact Hmiss.
Qed.

Lemma set_construction_reads_files_in_order_witness :
  SetOfExperiments_init two_run_files "data" "run" "Ca" "analysis" 2 = Returned two_run_set
  /\ SetOfExperiments_init two_run_files "data" "run" "Ca" "analysis" 3
     = Raised (FileNotFoundError "data/run_3_analysis_Ca.tab").
Proof.
  destruct (set_construction_reads_files_in_order
              two_run_files "data" "run" "Ca" "analysis" 2%Z)%string as [Hall _];
    [left; reflexivity|].
  destruct (set_construction_reads_files_in_order
              two_run_files "data" "run" "Ca" "analysis" 3%Z)%string as [_ Hmiss];
    [left; reflexivity|].
  split.
  - destruct Hall as (s & Hs & _).
    + intros i Hi. assert (Hc : i = 0 \/ i = 1) by lia.
      destruct Hc as [-> | ->]; vm_compute; discriminate.
    + rewrite Hs. vm_compute in Hs. injection Hs as <-. reflexivity.
  - apply (Hmiss 2).
    + simpl. lia.
    + intros i Hi. assert (Hc : i = 0 \/ i = 1) by lia.
      destruct Hc as [-> | ->]; vm_compute; discriminate.
    + reflexivity.
Defined.

(** *** The chain of the experiments of a set *)

Lemma prefix_app (n a b : string) :
  String.prefix n a = true -> String.prefix n (a ++ b) = true.
Proof.
  revert n. induction a as [|c a IH]; intros n Hp.
  - destruct n; [now destruct b | discriminate].
  - destruct n as [|d n]; [reflexivity|]. simpl in *.
    destruct (Ascii.ascii_dec d c); [now apply IH | discriminate].
Qed.

Lemma prefix_self (n r : string) : String.prefix n (n ++ r) = true.
Proof.
  induction n as [|c n IH]; simpl.
  - now destruct r.
  - destruct (Ascii.ascii_dec c c); [exact IH | contradiction].
Qed.

Lemma contains_app_l (n a b : string) :
  contains n a = true -> contains n (a ++ b) = true.
Proof.
  induction a as [|c a IH]; intros Hc.
  - simpl in Hc. rewrite orb_false_r in Hc.
    destruct n; [|discriminate]. destruct b; reflexivity.
  - change (String c a ++ b)%string with (String c (a ++ b)).
    simpl contains in *. apply orb_true_iff in Hc. apply orb_true_iff.
    destruct Hc as [Hp | Hc].
    + left. apply (prefix_app n (String c a) b Hp).
    + right. now apply IH.
Qed.

Lemma contains_app_r (n a b : string) :
  contains n b = true -> contains n (a ++ b) = true.
Proof.
  intros Hc. induction a as [|c a IH]; [exact Hc|].
  change (String c a ++ b)%string with (String c (a ++ b)).
  simpl contains. apply orb_true_iff. now right.
Qed.

Lemma contains_prefix (n s : string) :
  String.prefix n s = true -> contains n s = true.
Proof.
  intros Hp. destruct s; unfold contains; fold contains; rewrite Hp; reflexivity.
Qed.

Lemma contains_self (n r : string) : contains n (n ++ r) = true.
Proof. apply contains_prefix, prefix_self. Qed.

Lemma os_path_join_keeps_name (n a b : string) :
  contains n b = true -> contains n (os_path_join a b) = true.
Proof.
  intros Hc. unfold os_path_join.
  destruct (String.prefix "/" b); [exact Hc|].
  destruct (String.eqb a EmptyString || ends_with "/" a).
  - now apply contains_app_r.
  - apply contains_app_r. now apply contains_app_r.
Qed.

Lemma side_chain_experiment fs filepath e :
  contains "sidechain" filepath = true ->
  Experiment_init fs filepath = Returned e ->
  chain e = "side chain"%string /\ length (columns e) = 77.
Proof.
  intros Hc. unfold Experiment_init.
  destruct (read_csv fs filepath); [|discriminate].
  intros [= <-]. simpl. unfold chain_of_path. rewrite Hc. split; reflexivity.
Qed.

Lemma set_chain_of_paths fs data_path experiment_prefix ion chain n s
    (P : Experiment -> Prop) :
  (forall i e,
      Experiment_init fs (experiment_path data_path experiment_prefix chain ion i)
      = Returned e -> P e) ->
  SetOfExperiments_init fs data_path experiment_prefix ion chain n = Returned s ->
  Forall P (experiments s).
Proof.
  intros HP. unfold SetOfExperiments_init.
  destruct (negb (existsb (String.eqb chain) _)); [discriminate|].
  destruct (dict_get magic_numbers chain); [|discriminate].
  destruct (load_experiments fs data_path _) as [exps|] eqn:Hl; [|discriminate].
  intros [= <-]. simpl. apply load_experiments_returned in Hl.
  revert Hl. generalize (range n) as idx. intros idx. revert exps.
  induction idx as [|i idx IH]; intros exps Hf; inversion Hf; subst; constructor.
  - now apply (HP i).
  - now apply IH.
Qed.

Lemma sidechain_name_in_path data_path experiment_prefix ion i :
  contains "sidechain" (experiment_path data_path experiment_prefix "sidechain" ion i)
  = true.
Proof.
  unfold experiment_path. apply os_path_join_keeps_name.
  unfold experiment_file_name. do 4 apply contains_app_r. apply contains_self.
Qed.

(** X13. Every experiment of a set constructed with chain 'sidechain' is a
    side-chain experiment with the 77-entry schema, and the set's magic
    number is 1: the column stride matches the layout by construction. *)
Theorem sidechain_set_is_consistent :
  forall (fs : FileSystem) (data_path experiment_prefix ion : string) (n : Z)
         (s : SetOfExperiments),
    SetOfExperiments_init fs data_path experiment_prefix ion "sidechain" n = Returned s ->
    magic_number s = 1%Z
    /\ Forall (fun e => chain e = "side chain"%string /\ length (columns e) = 77)
              (experiments s).
Proof.
  intros fs data_path experiment_prefix ion n s Hs. split.
  - unfold SetOfExperiments_init in Hs. simpl in Hs.
    destruct (load_experiments fs data_path _); [|discriminate].
    injection Hs as <-. reflexivity.
  - apply (set_chain_of_paths _ _ _ _ _ _ _ _
             (fun i e => side_chain_experiment fs _ e
                           (sidechain_name_in_path data_path experiment_prefix ion i))
             Hs).
Qed.

Lemma sidechain_set_is_consistent_witness :
  let fs := files [("d/r_1_sidechain_Na.tab"%string, angle_table [(1, 2)]%Q)] in
  exists s,
    SetOfExperiments_init fs "d" "r" "Na" "sidechain" 1 = Returned s
    /\ magic_number s = 1%Z
    /\ Forall (fun e => chain e = "side chain"%string /\ length (columns e) = 77)
              (experiments s).
Proof.
  intros fs.
  destruct (SetOfExperiments_init fs "d" "r" "Na" "sidechain" 1) as [s|err] eqn:Hs;
    [|vm_compute in Hs; discriminate].
  exists s. split; [reflexivity|].
  apply (sidechain_set_is_consistent fs "d" "r" "Na" 1%Z s Hs)%string.
Defined.

Lemma prefix_slash_app (p r : string) :
  String.prefix "/" p = false -> String.prefix "/" (p ++ "_" ++ r) = false.
Proof.
  destruct p as [|c p]; intros Hp; [reflexivity|].
  cbn [String.prefix append] in *.
  destruct (Ascii.ascii_dec _ c); [|reflexivity].
  destruct p; discriminate.
Qed.

Lemma sidechain_directory_in_path data_path experiment_prefix chain ion i :
  contains "sidechain" data_path = true ->
  String.prefix "/" experiment_prefix = false ->
  contains "sidechain" (experiment_path data_path experiment_prefix chain ion i) = true.
Proof.
  intros Hdp Hpre. unfold experiment_path, os_path_join, experiment_file_name.
  rewrite (prefix_slash_app _ _ Hpre).
  destruct (String.eqb data_path EmptyString || ends_with "/" data_path);
    now apply contains_app_l.
Qed.

(** X14. The chain of an experiment is read off the whole path, not off the
    chain argument of the set: when the data path contains 'sidechain' (and
    the prefix does not start a new absolute path), a set constructed with
    chain 'analysis' owns side-chain experiments with the 77-entry schema
    while its magic number is the main-chain stride 4. *)
Theorem analysis_set_under_sidechain_path :
  forall (fs : FileSystem) (data_path experiment_prefix ion : string) (n : Z)
         (s : SetOfExperiments),
    contains "sidechain" data_path = true ->
    String.prefix "/" experiment_prefix = false ->
    SetOfExperiments_init fs data_path experiment_prefix ion "analysis" n = Returned s ->
    magic_number s = 4%Z
    /\ Forall (fun e => chain e = "side chain"%string /\ length (columns e) = 77)
              (experiments s).
Proof.
  intros fs data_path experiment_prefix ion n s Hdp Hpre Hs. split.
  - unfold SetOfExperiments_init in Hs. simpl in Hs.
    destruct (load_experiments fs data_path _); [|discriminate].
    injection Hs as <-. reflexivity.
  - apply (set_chain_of_paths _ _ _ _ _ _ _ _
             (fun i e => side_chain_experiment fs _ e
                           (sidechain_directory_in_path data_path experiment_prefix
                              "analysis" ion i Hdp Hpre))
             Hs).
Qed.

Lemma analysis_set_under_sidechain_path_witness :
  let fs := files [("sidechain_runs/r_1_analysis_Na.tab"%string,
                    angle_table [(1, 2)]%Q)] in
  exists s,
    SetOfExperiments_init fs "sidechain_runs" "r" "Na" "analysis" 1 = Returned s
    /\ magic_number s = 4%Z
    /\ Forall (fun e => chain e = "side chain"%string /\ length (columns e) = 77)
              (experiments s).
Proof.
  intros fs.
  destruct (SetOfExperiments_init fs "sidechain_runs" "r" "Na" "analysis" 1)
    as [s|err] eqn:Hs; [|vm_compute in Hs; discriminate].
  exists s. split; [reflexivity|].
  apply (analysis_set_under_sidechain_path fs "sidechain_runs" "r" "Na" 1%Z s)%string.
  - reflexivity.
  - reflexivity.
  - exact Hs.
Defined.

(* ================================================================== *)
(** ** The plotting methods *)


Ltac run_plot :=
  unfold plot_columns, plot_histogram_2d, save_or_show, bind, column_meaning,
    column_values, get, draw;
  cbn [subject drawn fst snd].








(** X17: which error [plot_histogram_2d] raises.  The schema is consulted
    before the table and for [xcol] before [ycol]; the table is then read
    for [ycol] before [xcol].  So a column inside the table but outside the
    schema is reported as a label error, and when both columns are outside
    the table it is [ycol] that is reported. *)
Theorem plot_histogram_2d_error_order
  (c : Canvas) (xcol ycol : Z) (plotname : option string) :
  let e := subject c in
  let result := snd (plot_histogram_2d xcol ycol plotname c) in
  (list_item (columns e) xcol = None ->
   result = Raised (IndexError (ColumnLabel xcol)))
  /\ (list_item (columns e) xcol <> None ->
      list_item (columns e) ycol = None ->
      result = Raised (IndexError (ColumnLabel ycol)))
  /\ (list_item (columns e) xcol <> None ->
      list_item (columns e) ycol <> None ->
      ~ column_in_range (dataframe e) ycol ->
      result = Raised (IndexError (ColumnSelect ycol)))
  /\ (list_item (columns e) xcol <> None ->
      list_item (columns e) ycol <> None ->
      column_in_range (dataframe e) ycol ->
      ~ column_in_range (dataframe e) xcol ->
      result = Raised (IndexError (ColumnSelect xcol))).
Proof.
  cbv zeta. run_plot. repeat apply conj.
  - intros ->. reflexivity.
  - intros Hx. destruct (list_item (columns (subject c)) xcol); [|congruence].
    intros ->. reflexivity.
  - intros Hx Hy Hout.
    destruct (list_item (columns (subject c)) xcol); [|congruence].
    destruct (list_item (columns (subject c)) ycol); [|congruence].
    cbn [fst snd subject]. rewrite (iloc_column_out_of_range _ _ Hout). reflexivity.
  - intros Hx Hy Hin Hout.
    destruct (list_item (columns (subject c)) xcol); [|congruence].
    destruct (list_item (columns (subject c)) ycol); [|congruence].
    cbn [fst snd subject].
    destruct (iloc_column_in_range _ _ Hin) as [y [-> _]]. cbn [fst snd subject].
    rewrite (iloc_column_out_of_range _ _ Hout). reflexivity.
Qed.

Lemma plot_histogram_2d_error_order_witness :
  snd (plot_histogram_2d 8 90 None
         {| subject :=
              {| dataframe := dataframe (experiment_of (angle_table [(1, 2)%Q]));
                 chain := "side chain";
                 columns := schema_columns "side chain" |};
            drawn := [] |})
  = Raised (IndexError (ColumnLabel 90))
  /\ snd (plot_histogram_2d 7 5 None
            {| subject := experiment_of {| table_width := 2; cells := [[1; 2]%Q] |};
               drawn := [] |})
     = Raised (IndexError (ColumnSelect 5)).
Proof.
  split.
  - apply (plot_histogram_2d_error_order
             {| subject :=
                  {| dataframe := dataframe (experiment_of (angle_table [(1, 2)%Q]));
                     chain := "side chain";
                     columns := schema_columns "side chain" |};
                drawn := [] |} 8 90 None).
    + vm_compute. discriminate.
    + vm_compute. reflexivity.
  - apply (plot_histogram_2d_error_order
             {| subject := experiment_of {| table_width := 2; cells := [[1; 2]%Q] |};
                drawn := [] |} 7 5 None).
    + vm_compute. discriminate.
    + vm_compute. discriminate.
    + unfold column_in_range. cbn [subject experiment_of dataframe width table_width]. lia.
Defined.

(** A run of [plot_columns]: the column ninety-one from the right (column
    9) of a two-row table against the time column, stored under 'out/'.
    The second angle has its sign put back, and the file name carries the
    index as it was given. *)
Example plot_columns_runs :
  let result :=
    plot_columns (-91) (Some "out/"%string)
      {| subject := experiment_of (angle_table [(1, 2); (3, -2)]%Q); drawn := [] |} in
  snd result = Returned tt
  /\ exists xlabel ylabel title,
      drawn (fst result)
      = [FigPlot [0; 0]%Q [2; 2]%Q; FigXlabel xlabel; FigYlabel ylabel; FigTitle title;
         FigSavefig "out/series_mainchain_-91.pdf"; FigClf].
Proof.
  vm_compute. split; [reflexivity|]. do 3 eexists. reflexivity.
Qed.

